(** * RAINS server core: a shallow embedding of the Go sources

    The development follows the packages of the repository:
    - [rainslib] (message sorting, signatures),
    - [util] (section validity, gob persistence),
    - [rainsd] (server construction, capabilities, the switchboard).

    Go values are modelled as the code has them: [int]/[int64] as [Z],
    strings as [string], [[]byte] as [list byte], an [interface{}] holding a
    key or signature payload as a tagged value, and a call that may panic as an
    [outcome]. *)

From Stdlib Require Import ZArith List String Ascii Bool Lia.
From Stdlib Require Import Permutation Sorted DecimalString.
From Stdlib Require Init.Byte.
From Stdlib Require DecimalPos DecimalZ.
Import ListNotations.

Open Scope string_scope.
Open Scope Z_scope.
Open Scope list_scope.

(* ================================================================= *)
(** * Fragments of the Go runtime and standard library *)

(** A Go call either returns a value or panics (failed unchecked type
    assertion, nil-pointer dereference). *)
Inductive outcome (A : Type) : Type :=
| Returns (a : A)
| Panics.
Arguments Returns {A} a.
Arguments Panics {A}.

Definition bind {A B : Type} (m : outcome A) (k : A -> outcome B) : outcome B :=
  match m with
  | Returns a => k a
  | Panics => Panics
  end.

Notation "x <- m ;; k" := (bind m (fun x => k))
  (at level 61, m at next level, right associativity).

(** Go's [error] interface: [None] is the nil error, [Some msg] an error
    carrying its message. *)
Definition error : Type := option string.

Definition errors_New (msg : string) : error := Some msg.

(** [fmt.Sprintf("%d", z)]. *)
Definition fmt_d (z : Z) : string := NilZero.string_of_int (Z.to_int z).

(** [strings.Join]. *)
Fixpoint strings_Join (elems : list string) (sep : string) : string :=
  match elems with
  | [] => ""
  | [s] => s
  | s :: rest => (s ++ sep ++ strings_Join rest sep)%string
  end.

(** Signed 64-bit wrap-around of Go's [int], [int64] and [time.Duration]. *)
Definition wrap64 (z : Z) : Z := (z + 2 ^ 63) mod 2 ^ 64 - 2 ^ 63.

(* ================================================================= *)
(** * Package rainslib: signatures *)

(** [SignatureAlgorithmType] is an integer type; the [switch] statements of
    [SignData] and [VerifySignature] name four constants and fall to
    [default] for every other value. *)
Inductive SignatureAlgorithmType : Type :=
| Ed25519
| Ed448
| Ecdsa256
| Ecdsa384
| OtherAlgorithm (code : Z).

(** Modelled from the spec: the integer values of the algorithm constants are
    declared outside the covered sources; they are numbered in the order the
    specification lists the algorithms (Ed25519, Ed448, ECDSA-P256,
    ECDSA-P384).  Only the text of the signature meta data depends on them. *)
Definition SignatureAlgorithmType_int (a : SignatureAlgorithmType) : Z :=
  match a with
  | Ed25519 => 1
  | Ed448 => 2
  | Ecdsa256 => 3
  | Ecdsa384 => 4
  | OtherAlgorithm code => code
  end.

(** [crypto/ecdsa]'s key structs; a private key embeds its public key. *)
Record ecdsa_PublicKey : Type := {
  Curve : string;
  X : Z;
  Y : Z
}.

Record ecdsa_PrivateKey : Type := {
  PublicKey : ecdsa_PublicKey;
  D : Z
}.

(** The cryptographic primitives are external to the repository
    ([golang.org/x/crypto/ed25519], [crypto/ecdsa], [crypto/sha256],
    [crypto/sha512], [crypto/rand]).  [ecdsa.Sign] reads [rand.Reader] and may
    report an error.  The two relations tell which pairs of a public and a
    private key the key generation of each scheme hands out.  The primitives
    are taken on keys of the right length: [ed25519.Sign] and
    [ed25519.Verify] panic on any other key. *)
Class Crypto : Type := {
  RandReader : Type;
  ed25519_Sign : list Byte.byte -> list Byte.byte -> list Byte.byte;
  ed25519_Verify : list Byte.byte -> list Byte.byte -> list Byte.byte -> bool;
  sha256_Sum256 : list Byte.byte -> list Byte.byte;
  sha512_Sum384 : list Byte.byte -> list Byte.byte;
  ecdsa_Sign : RandReader -> ecdsa_PrivateKey -> list Byte.byte -> (Z * Z) + string;
  ecdsa_Verify : ecdsa_PublicKey -> list Byte.byte -> Z -> Z -> bool;
  ed25519_keypair : list Byte.byte -> list Byte.byte -> Prop;
  ecdsa_keypair : ecdsa_PublicKey -> ecdsa_PrivateKey -> Prop
}.

(** What the primitives promise for such key pairs: a signature made with the
    private key verifies under the public key. *)
Class CryptoCorrect `{Crypto} : Prop := {
  ed25519_sound : forall pk sk msg,
    ed25519_keypair pk sk -> ed25519_Verify pk msg (ed25519_Sign sk msg) = true;
  ecdsa_sound : forall pk sk rnd hash r s,
    ecdsa_keypair pk sk -> ecdsa_Sign rnd sk hash = inl (r, s) ->
    ecdsa_Verify pk hash r s = true
}.

(** The dynamic values that travel through the [interface{}] parameters
    [privateKey], [publicKey] and the field [Signature.Data]. *)
Inductive iface : Type :=
| Nil
| Bytes (b : list Byte.byte)
| BigInts (l : list Z)
| Ed25519PrivateKey (k : list Byte.byte)
| Ed25519PublicKey (k : list Byte.byte)
| EcdsaPrivateKey (k : ecdsa_PrivateKey)
| EcdsaPublicKey (k : ecdsa_PublicKey)
| OtherValue (typeName : string).

Record Signature : Type := mkSignature {
  KeySpace : Z;
  Algorithm : SignatureAlgorithmType;
  ValidSince : Z;
  ValidUntil : Z;
  Data : iface
}.

Definition set_Data (sig : Signature) (d : iface) : Signature :=
  mkSignature (KeySpace sig) (Algorithm sig) (ValidSince sig) (ValidUntil sig) d.

(** [fmt.Sprintf("%d %d %d %d", KeySpace, Algorithm, ValidSince, ValidUntil)]. *)
Definition GetSignatureMetaData (sig : Signature) : string :=
  (fmt_d (KeySpace sig) ++ " " ++ fmt_d (SignatureAlgorithmType_int (Algorithm sig))
    ++ " " ++ fmt_d (ValidSince sig) ++ " " ++ fmt_d (ValidUntil sig))%string.

Section Signatures.

Context `{Crypto}.

(** [sig.SignData(privateKey, encoding)]: the updated signature and the
    returned error.  In the [Ed25519] case the arguments of [log.Debug] are
    evaluated first, and they contain the unchecked assertion
    [privateKey.(ed25519.PrivateKey)]. *)
Definition SignData (sig : Signature) (privateKey : iface) (encoding : string)
    (rnd : RandReader) : outcome (Signature * error) :=
  match privateKey with
  | Nil => Returns (sig, errors_New "privateKey is nil")
  | _ =>
    let encoding := (encoding ++ GetSignatureMetaData sig)%string in
    let data := list_byte_of_string encoding in
    match Algorithm sig with
    | Ed25519 =>
      match privateKey with
      | Ed25519PrivateKey _ =>
        match privateKey with
        | Ed25519PrivateKey pkey =>
          Returns (set_Data sig (Bytes (ed25519_Sign pkey data)), None)
        | _ => Returns (sig, errors_New "could not assert type ed25519.PrivateKey")
        end
      | _ => Panics
      end
    | Ed448 => Returns (sig, errors_New "ed448 not yet supported in SignData()")
    | Ecdsa256 =>
      match privateKey with
      | EcdsaPrivateKey pkey =>
        let hash := sha256_Sum256 data in
        match ecdsa_Sign rnd pkey hash with
        | inr err => Returns (sig, Some err)
        | inl (r, s) => Returns (set_Data sig (BigInts [r; s]), None)
        end
      | _ => Returns (sig, errors_New "could not assert type ecdsa.PrivateKey")
      end
    | Ecdsa384 =>
      match privateKey with
      | EcdsaPrivateKey pkey =>
        let hash := sha512_Sum384 data in
        match ecdsa_Sign rnd pkey hash with
        | inr err => Returns (sig, Some err)
        | inl (r, s) => Returns (set_Data sig (BigInts [r; s]), None)
        end
      | _ => Returns (sig, errors_New "could not assert type ecdsa.PrivateKey")
      end
    | OtherAlgorithm _ =>
      Returns (sig, errors_New "signature algorithm type not supported")
    end
  end.

(** [sig.VerifySignature(publicKey, encoding)].  The [Ed25519] case asserts
    [sig.Data.([]byte)] without the comma-ok form; the ECDSA cases check
    [sig.Data.([]*big.Int)] and its length. *)
Definition VerifySignature (sig : Signature) (publicKey : iface) (encoding : string)
    : outcome bool :=
  match Data sig with
  | Nil => Returns false
  | _ =>
    match publicKey with
    | Nil => Returns false
    | _ =>
      let encoding := (encoding ++ GetSignatureMetaData sig)%string in
      let data := list_byte_of_string encoding in
      match Algorithm sig with
      | Ed25519 =>
        match publicKey with
        | Ed25519PublicKey pkey =>
          match Data sig with
          | Bytes sigBytes => Returns (ed25519_Verify pkey data sigBytes)
          | _ => Panics
          end
        | _ => Returns false
        end
      | Ed448 => Returns false
      | Ecdsa256 =>
        match publicKey with
        | EcdsaPublicKey pkey =>
          match Data sig with
          | BigInts [r; s] =>
            let hash := sha256_Sum256 data in
            Returns (ecdsa_Verify pkey hash r s)
          | _ => Returns false
          end
        | _ => Returns false
        end
      | Ecdsa384 =>
        match publicKey with
        | EcdsaPublicKey pkey =>
          match Data sig with
          | BigInts [r; s] =>
            let hash := sha512_Sum384 data in
            Returns (ecdsa_Verify pkey hash r s)
          | _ => Returns false
          end
        | _ => Returns false
        end
      | OtherAlgorithm _ => Returns false
      end
    end
  end.

(** A key pair whose Go types are the ones the algorithm's case expects. *)
Inductive keypair_for : SignatureAlgorithmType -> iface -> iface -> Prop :=
| keypair_Ed25519 : forall pk sk, ed25519_keypair pk sk ->
    keypair_for Ed25519 (Ed25519PublicKey pk) (Ed25519PrivateKey sk)
| keypair_Ecdsa256 : forall pk sk, ecdsa_keypair pk sk ->
    keypair_for Ecdsa256 (EcdsaPublicKey pk) (EcdsaPrivateKey sk)
| keypair_Ecdsa384 : forall pk sk, ecdsa_keypair pk sk ->
    keypair_for Ecdsa384 (EcdsaPublicKey pk) (EcdsaPrivateKey sk).

(** The only way signing with a matching key pair reports an error: the ECDSA
    primitive itself failed on the hashed payload. *)
Definition ecdsa_primitive_failed (sig : Signature) (privateKey : iface)
    (encoding : string) (rnd : RandReader) (err : string) : Prop :=
  let data := list_byte_of_string (encoding ++ GetSignatureMetaData sig)%string in
  match Algorithm sig, privateKey with
  | Ecdsa256, EcdsaPrivateKey sk => ecdsa_Sign rnd sk (sha256_Sum256 data) = inr err
  | Ecdsa384, EcdsaPrivateKey sk => ecdsa_Sign rnd sk (sha512_Sum384 data) = inr err
  | _, _ => False
  end.

End Signatures.

(* ================================================================= *)
(** * Package rainslib: messages and their sections *)

(** A concrete section type with the two methods [RainsMessage.Sort] calls on
    it: [Sort()], which sorts the section's own content in place, and
    [CompareTo], the three-way comparison behind every [less] closure.  The
    struct types and both methods are declared outside the covered sources. *)
Record SectionImpl : Type := {
  carrier :> Type;
  Sort : carrier -> carrier;
  CompareTo : carrier -> carrier -> Z
}.
Arguments Sort {s} _.
Arguments CompareTo {s} _ _.

(** The eight section types the type switch of [RainsMessage.Sort] names, and
    any further implementation of the interface [MessageSection] (it only
    requires a method [Sort()]). *)
Class Sections : Type := {
  AssertionSection : SectionImpl;
  ShardSection : SectionImpl;
  ZoneSection : SectionImpl;
  QuerySection : SectionImpl;
  NotificationSection : SectionImpl;
  AddressAssertionSection : SectionImpl;
  AddressZoneSection : SectionImpl;
  AddressQuerySection : SectionImpl;
  UnsupportedSection : Type;
  Unsupported_Sort : UnsupportedSection -> UnsupportedSection
}.

(** [sort.Slice] of the Go standard library; the [less] closure is given on
    elements instead of indices. *)
Class GoSort : Type := {
  sort_Slice : forall {A : Type}, (A -> A -> bool) -> list A -> list A
}.

Section Messages.

Context `{Sections} `{GoSort}.

(** The interface [MessageSection]: a (non-nil) pointer to one of the section
    types.  A value stands for the object the pointer refers to; [Sort()]
    changes that object in place, so the section that was [sec] before the
    call is [Sort sec] after it. *)
Inductive MessageSection : Type :=
| IsAssertion (sec : AssertionSection)
| IsShard (sec : ShardSection)
| IsZone (sec : ZoneSection)
| IsQuery (sec : QuerySection)
| IsNotification (sec : NotificationSection)
| IsAddressAssertion (sec : AddressAssertionSection)
| IsAddressZone (sec : AddressZoneSection)
| IsAddressQuery (sec : AddressQuerySection)
| IsUnsupported (sec : UnsupportedSection).

Record RainsMessage : Type := mkRainsMessage {
  Token : list Byte.byte;
  Content : list MessageSection;
  Signatures : list Signature;
  Capabilities : list string
}.

(** The dynamic dispatch of [sec.Sort()]. *)
Definition MessageSection_Sort (sec : MessageSection) : MessageSection :=
  match sec with
  | IsAssertion s => IsAssertion (Sort s)
  | IsShard s => IsShard (Sort s)
  | IsZone s => IsZone (Sort s)
  | IsQuery s => IsQuery (Sort s)
  | IsNotification s => IsNotification (Sort s)
  | IsAddressAssertion s => IsAddressAssertion (Sort s)
  | IsAddressZone s => IsAddressZone (Sort s)
  | IsAddressQuery s => IsAddressQuery (Sort s)
  | IsUnsupported s => IsUnsupported (Unsupported_Sort s)
  end.

(** The eight local slices of [RainsMessage.Sort]. *)
Record sectionSlices : Type := mkSlices {
  assertions : list AssertionSection;
  shards : list ShardSection;
  zones : list ZoneSection;
  queries : list QuerySection;
  addressAssertions : list AddressAssertionSection;
  addressZones : list AddressZoneSection;
  addressQueries : list AddressQuerySection;
  notifications : list NotificationSection
}.

Definition emptySlices : sectionSlices := mkSlices [] [] [] [] [] [] [] [].

(** One iteration of [for _, sec := range m.Content]: sort the section, then
    append it to the slice of its type; a section of any other type is only
    logged. *)
Definition collectSection (v : sectionSlices) (sec : MessageSection) : sectionSlices :=
  match MessageSection_Sort sec with
  | IsAssertion sec =>
    mkSlices (assertions v ++ [sec]) (shards v) (zones v) (queries v)
      (addressAssertions v) (addressZones v) (addressQueries v) (notifications v)
  | IsShard sec =>
    mkSlices (assertions v) (shards v ++ [sec]) (zones v) (queries v)
      (addressAssertions v) (addressZones v) (addressQueries v) (notifications v)
  | IsZone sec =>
    mkSlices (assertions v) (shards v) (zones v ++ [sec]) (queries v)
      (addressAssertions v) (addressZones v) (addressQueries v) (notifications v)
  | IsQuery sec =>
    mkSlices (assertions v) (shards v) (zones v) (queries v ++ [sec])
      (addressAssertions v) (addressZones v) (addressQueries v) (notifications v)
  | IsNotification sec =>
    mkSlices (assertions v) (shards v) (zones v) (queries v)
      (addressAssertions v) (addressZones v) (addressQueries v) (notifications v ++ [sec])
  | IsAddressAssertion sec =>
    mkSlices (assertions v) (shards v) (zones v) (queries v)
      (addressAssertions v ++ [sec]) (addressZones v) (addressQueries v) (notifications v)
  | IsAddressZone sec =>
    mkSlices (assertions v) (shards v) (zones v) (queries v)
      (addressAssertions v) (addressZones v ++ [sec]) (addressQueries v) (notifications v)
  | IsAddressQuery sec =>
    mkSlices (assertions v) (shards v) (zones v) (queries v)
      (addressAssertions v) (addressZones v) (addressQueries v ++ [sec]) (notifications v)
  | IsUnsupported _ => v
  end.

(** [func(i, j int) bool { return xs[i].CompareTo(xs[j]) < 0 }]. *)
Definition less {T : SectionImpl} (a b : T) : bool := CompareTo a b <? 0.

(** [m.Sort()]: the new value of [m.Content]. *)
Definition Sort_Content (content : list MessageSection) : list MessageSection :=
  let v := fold_left collectSection content emptySlices in
  let assertions := sort_Slice less (assertions v) in
  let shards := sort_Slice less (shards v) in
  let zones := sort_Slice less (zones v) in
  let queries := sort_Slice less (queries v) in
  let addressAssertions := sort_Slice less (addressAssertions v) in
  let addressZones := sort_Slice less (addressZones v) in
  let addressQueries := sort_Slice less (addressQueries v) in
  let notifications := sort_Slice less (notifications v) in
  ((((((([] ++ map IsAddressQuery addressQueries)
    ++ map IsAddressZone addressZones)
    ++ map IsAddressAssertion addressAssertions)
    ++ map IsAssertion assertions)
    ++ map IsShard shards)
    ++ map IsZone zones)
    ++ map IsQuery queries)
    ++ map IsNotification notifications.

Definition RainsMessage_Sort (m : RainsMessage) : RainsMessage :=
  mkRainsMessage (Token m) (Sort_Content (Content m)) (Signatures m) (Capabilities m).

(** The position of a section's kind in the sequence AddressQuery,
    AddressZone, AddressAssertion, Assertion, Shard, Zone, Query,
    Notification; [None] for a type outside the eight. *)
Definition kindRank (sec : MessageSection) : option nat :=
  match sec with
  | IsAddressQuery _ => Some 0%nat
  | IsAddressZone _ => Some 1%nat
  | IsAddressAssertion _ => Some 2%nat
  | IsAssertion _ => Some 3%nat
  | IsShard _ => Some 4%nat
  | IsZone _ => Some 5%nat
  | IsQuery _ => Some 6%nat
  | IsNotification _ => Some 7%nat
  | IsUnsupported _ => None
  end.

Definition isKnown (sec : MessageSection) : bool :=
  match kindRank sec with
  | Some _ => true
  | None => false
  end.

(** [a] may stand before [b] in a sorted message: its kind comes earlier in
    the sequence, or both are of one kind and [a.CompareTo(b) <= 0]. *)
Definition inOrder (a b : MessageSection) : Prop :=
  match a, b with
  | IsAssertion x, IsAssertion y => CompareTo x y <= 0
  | IsShard x, IsShard y => CompareTo x y <= 0
  | IsZone x, IsZone y => CompareTo x y <= 0
  | IsQuery x, IsQuery y => CompareTo x y <= 0
  | IsNotification x, IsNotification y => CompareTo x y <= 0
  | IsAddressAssertion x, IsAddressAssertion y => CompareTo x y <= 0
  | IsAddressZone x, IsAddressZone y => CompareTo x y <= 0
  | IsAddressQuery x, IsAddressQuery y => CompareTo x y <= 0
  | _, _ =>
    match kindRank a, kindRank b with
    | Some i, Some j => (i < j)%nat
    | _, _ => False
    end
  end.

(** A slice of sections whose kinds have a rank within [lo, hi). *)
Definition ranksWithin (lo hi : nat) (l : list MessageSection) : Prop :=
  Forall (fun sec => exists i, kindRank sec = Some i /\ (lo <= i < hi)%nat) l.

(** The checked type assertions of the type switch, and the sub-slice of the
    sections for which an assertion succeeds. *)
Definition asAssertion (sec : MessageSection) : option AssertionSection :=
  match sec with IsAssertion s => Some s | _ => None end.
Definition asShard (sec : MessageSection) : option ShardSection :=
  match sec with IsShard s => Some s | _ => None end.
Definition asZone (sec : MessageSection) : option ZoneSection :=
  match sec with IsZone s => Some s | _ => None end.
Definition asQuery (sec : MessageSection) : option QuerySection :=
  match sec with IsQuery s => Some s | _ => None end.
Definition asNotification (sec : MessageSection) : option NotificationSection :=
  match sec with IsNotification s => Some s | _ => None end.
Definition asAddressAssertion (sec : MessageSection) : option AddressAssertionSection :=
  match sec with IsAddressAssertion s => Some s | _ => None end.
Definition asAddressZone (sec : MessageSection) : option AddressZoneSection :=
  match sec with IsAddressZone s => Some s | _ => None end.
Definition asAddressQuery (sec : MessageSection) : option AddressQuerySection :=
  match sec with IsAddressQuery s => Some s | _ => None end.

Fixpoint choose {A B : Type} (f : A -> option B) (l : list A) : list B :=
  match l with
  | [] => []
  | x :: rest =>
    match f x with
    | Some y => y :: choose f rest
    | None => choose f rest
    end
  end.

End Messages.

(** What the documentation of [sort.Slice] promises: the slice is permuted,
    and it ends up sorted whenever [less] is a strict weak ordering. *)
Record StrictWeakOrder {A : Type} (lt : A -> A -> bool) : Prop := {
  swo_asym : forall a b, lt a b = true -> lt b a = false;
  swo_negtrans : forall a b c, lt a b = false -> lt b c = false -> lt a c = false
}.

Class GoSortSpec `{GoSort} : Prop := {
  sort_Slice_Permutation : forall (A : Type) (lt : A -> A -> bool) (l : list A),
    Permutation l (sort_Slice lt l);
  sort_Slice_Sorted : forall (A : Type) (lt : A -> A -> bool) (l : list A),
    StrictWeakOrder lt ->
    StronglySorted (fun a b => lt b a = false) (sort_Slice lt l)
}.

(** The contract of a comparison method: the sign flips with the arguments,
    and "not greater" is transitive. *)
Record CompareLaws (T : SectionImpl) : Prop := {
  cmp_flip : forall a b : T, CompareTo a b < 0 <-> 0 < CompareTo b a;
  cmp_trans : forall a b c : T, CompareTo a b <= 0 -> CompareTo b c <= 0 -> CompareTo a c <= 0
}.

(** A total order in the sense of the specification: only equal sections
    compare as equal; and sorting a section's content twice changes nothing
    more. *)
Record TotalOrderLaws (T : SectionImpl) : Prop := {
  cmp_laws : CompareLaws T;
  cmp_zero_eq : forall a b : T, CompareTo a b = 0 -> a = b;
  Sort_idempotent : forall a : T, Sort (Sort a) = Sort a
}.

Definition forallSections `{Sections} (P : SectionImpl -> Prop) : Prop :=
  P AssertionSection /\ P ShardSection /\ P ZoneSection /\ P QuerySection /\
  P NotificationSection /\ P AddressAssertionSection /\ P AddressZoneSection /\
  P AddressQuerySection.

(* ================================================================= *)
(** * Package util: section validity and gob persistence *)

(** [time.Duration] counts nanoseconds. *)
Definition Duration : Type := Z.
Definition Millisecond : Duration := 1000000.
Definition Second : Duration := 1000 * Millisecond.
Definition Hour : Duration := 3600 * Second.

Record MaxCacheValidity : Type := mkMaxCacheValidity {
  AssertionValidity : Duration;
  ShardValidity : Duration;
  ZoneValidity : Duration;
  AddressAssertionValidity : Duration;
  AddressZoneValidity : Duration
}.

(** The dynamic type behind a [sections.MessageSectionWithSig]: the five types
    the type switch of [UpdateSectionValidity] names, or any other
    implementation of the interface. *)
Inductive SectionType : Type :=
| AssertionSectionT
| ShardSectionT
| ZoneSectionT
| AddressAssertionSectionT
| AddressZoneSectionT
| OtherSectionT.

(** The part of a signable section [UpdateSectionValidity] reads and writes:
    its dynamic type and its validity window (Unix seconds). *)
Record SectionWithSig : Type := mkSectionWithSig {
  sectionType : SectionType;
  validSince : Z;
  validUntil : Z
}.

(** Modelled from the spec: the method [UpdateValidity] of the section types
    is declared outside the covered sources.  The specification makes the
    window it is given the section's validity, "further capped at
    now + maxValidity[sectionKind]": neither end lies after that instant.
    [now] is the clock in Unix seconds, [maxValidity] a [time.Duration]. *)
Definition UpdateValidity (now : Z) (sec : SectionWithSig)
    (validSince validUntil : Z) (maxValidity : Duration) : SectionWithSig :=
  let cap := now + maxValidity / Second in
  mkSectionWithSig (sectionType sec) (Z.min validSince cap) (Z.min validUntil cap).

(** [UpdateSectionValidity]; [sec = None] is the nil interface, and the result
    is the section after the call. *)
Definition UpdateSectionValidity (now : Z) (sec : option SectionWithSig)
    (pkeyValidSince pkeyValidUntil sigValidSince sigValidUntil : Z)
    (maxVal : MaxCacheValidity) : option SectionWithSig :=
  match sec with
  | Some s =>
    let maxValidity :=
      match sectionType s with
      | AssertionSectionT => Some (AssertionValidity maxVal)
      | ShardSectionT => Some (ShardValidity maxVal)
      | ZoneSectionT => Some (ZoneValidity maxVal)
      | AddressAssertionSectionT => Some (AddressAssertionValidity maxVal)
      | AddressZoneSectionT => Some (AddressZoneValidity maxVal)
      | OtherSectionT => None
      end in
    match maxValidity with
    | None => Some s
    | Some maxValidity =>
      if pkeyValidSince <? sigValidSince then
        if pkeyValidUntil <? sigValidUntil then
          Some (UpdateValidity now s sigValidSince pkeyValidUntil maxValidity)
        else
          Some (UpdateValidity now s sigValidSince sigValidUntil maxValidity)
      else
        if pkeyValidUntil <? sigValidUntil then
          Some (UpdateValidity now s pkeyValidSince pkeyValidUntil maxValidity)
        else
          Some (UpdateValidity now s pkeyValidSince sigValidUntil maxValidity)
    end
  | None => None
  end.

(** The configured maximum validity of a section kind, as the claim about
    [UpdateSectionValidity] names it. *)
Definition maxValidityOf (maxVal : MaxCacheValidity) (t : SectionType) : option Duration :=
  match t with
  | AssertionSectionT => Some (AssertionValidity maxVal)
  | ShardSectionT => Some (ShardValidity maxVal)
  | ZoneSectionT => Some (ZoneValidity maxVal)
  | AddressAssertionSectionT => Some (AddressAssertionValidity maxVal)
  | AddressZoneSectionT => Some (AddressZoneValidity maxVal)
  | OtherSectionT => None
  end.

(** The operating system and [encoding/gob] as [Save] meets them.  [os.Create]
    yields a file handle (nil on failure) and an error; [Encode] writes to the
    handle and reports an error, or panics (gob does so on a nil pointer
    value); [Close] is what the deferred call does to the world. *)
Class FileSystem : Type := {
  FSWorld : Type;
  File : Type;
  GobValue : Type;
  os_Create : string -> FSWorld -> (option File * error) * FSWorld;
  gob_Encode : option File -> GobValue -> FSWorld -> outcome (error * FSWorld);
  File_Close : option File -> FSWorld -> FSWorld
}.

(** [Save(path, object)]: the returned error and the world after the deferred
    [file.Close()].  The error [encoder.Encode] returns is dropped. *)
Definition Save `{FileSystem} (path : string) (object : GobValue) (w : FSWorld)
    : outcome (error * FSWorld) :=
  let '((file, err), w) := os_Create path w in
  w <- match err with
       | None =>
         r <- gob_Encode file object w ;;
         Returns (snd r)
       | Some _ => Returns w
       end ;;
  Returns (err, File_Close file w).

(* ================================================================= *)
(** * Package rainsd: server construction *)

(** The fields of [rainsdConfig] that [New] and [loadConfig] use. *)
Record rainsdConfig : Type := mkConfig {
  RootZonePublicKeyPath : string;
  KeepAlivePeriod : Duration;
  TCPTimeout : Duration;
  TLSCertificateFile : string;
  TLSPrivateKeyFile : string;
  PrioBufferSize : Z;
  NormalBufferSize : Z;
  NotificationBufferSize : Z;
  PrioWorkerCount : Z;
  NormalWorkerCount : Z;
  NotificationWorkerCount : Z;
  ConfigCapabilities : list string;
  DelegationQueryValidity : Duration;
  ReapVerifyTimeout : Duration;
  QueryValidity : Duration;
  AddressQueryValidity : Duration;
  ReapEngineTimeout : Duration;
  ConfigMaxCacheValidity : MaxCacheValidity;
  ContextAuthority : list string;
  ZoneAuthority : list string
}.

Definition zeroConfig : rainsdConfig :=
  mkConfig "" 0 0 "" "" 0 0 0 0 0 0 [] 0 0 0 0 0 (mkMaxCacheValidity 0 0 0 0 0) [] [].

(** A buffered channel, known here by its capacity only. *)
Record chan : Type := mkChan { capacity : Z }.

(** [make(chan T, size)] panics on a negative size. *)
Definition make_chan (size : Z) : outcome chan :=
  if size <? 0 then Panics else Returns (mkChan size).

Record InputQueues : Type := mkInputQueues {
  Prio : chan;
  Normal : chan;
  Notify : chan;
  PrioW : chan;
  NormalW : chan;
  NotifyW : chan
}.

(** What [New] obtains from outside the covered sources: files, the JSON
    decoder, the X.509 and TLS loaders, the root key loader and the caches. *)
Class ServerEnv : Type := {
  CertPool : Type;
  Certificate : Type;
  Caches : Type;
  zeroCertificate : Certificate;
  ioutil_ReadFile : string -> list Byte.byte * error;
  json_Unmarshal : list Byte.byte -> rainsdConfig -> rainsdConfig * error;
  x509_NewCertPool : CertPool;
  AppendCertsFromPEM : CertPool -> list Byte.byte -> CertPool * bool;
  tls_LoadX509KeyPair : string -> string -> Certificate * error;
  loadRootZonePublicKey : string -> error;
  initCaches : rainsdConfig -> Caches
}.

Section Server.

Context `{ServerEnv}.

Record Server : Type := mkServer {
  config : rainsdConfig;
  authority : list ((string * string) * bool);
  certPool : option CertPool;
  tlsCert : Certificate;
  capabilityHash : string;
  capabilityList : string;
  shutdown : option chan;
  queues : option InputQueues;
  caches : option Caches
}.

(** [loadConfig]. *)
Definition loadConfig (configPath : string) : rainsdConfig * error :=
  let config := zeroConfig in
  let '(file, err) := ioutil_ReadFile configPath in
  match err with
  | Some e => (zeroConfig, Some e)
  | None =>
    let '(config, err) := json_Unmarshal file config in
    match err with
    | Some e => (zeroConfig, Some e)
    | None =>
      let mv := ConfigMaxCacheValidity config in
      (mkConfig (RootZonePublicKeyPath config)
         (wrap64 (KeepAlivePeriod config * Second))
         (wrap64 (TCPTimeout config * Second))
         (TLSCertificateFile config) (TLSPrivateKeyFile config)
         (PrioBufferSize config) (NormalBufferSize config) (NotificationBufferSize config)
         (PrioWorkerCount config) (NormalWorkerCount config) (NotificationWorkerCount config)
         (ConfigCapabilities config)
         (wrap64 (DelegationQueryValidity config * Second))
         (wrap64 (ReapVerifyTimeout config * Second))
         (wrap64 (QueryValidity config * Second))
         (wrap64 (AddressQueryValidity config * Second))
         (wrap64 (ReapEngineTimeout config * Second))
         (mkMaxCacheValidity
            (wrap64 (AssertionValidity mv * Hour))
            (wrap64 (ShardValidity mv * Hour))
            (wrap64 (ZoneValidity mv * Hour))
            (wrap64 (AddressAssertionValidity mv * Hour))
            (wrap64 (AddressZoneValidity mv * Hour)))
         (ContextAuthority config) (ZoneAuthority config),
       None)
    end
  end.

(** [loadTLSCertificate]. *)
Definition loadTLSCertificate (certPath TLSPrivateKeyPath : string)
    : option CertPool * Certificate * error :=
  let pool := x509_NewCertPool in
  let '(file, err) := ioutil_ReadFile certPath in
  match err with
  | Some e => (None, zeroCertificate, Some e)
  | None =>
    let '(pool, ok) := AppendCertsFromPEM pool file in
    if negb ok then
      (None, zeroCertificate, errors_New "failed to parse root certificate")
    else
      let '(cert, err) := tls_LoadX509KeyPair certPath TLSPrivateKeyPath in
      match err with
      | Some e => (None, zeroCertificate, Some e)
      | None => (Some pool, cert, None)
      end
  end.

(** [initOwnCapabilities]: the hash is the constant of the draft, and the
    list is joined in the order it was given. *)
Definition initOwnCapabilities (capabilities : list string) : string * string :=
  let capabilityHash := "e5365a09be554ae55b855f15264dbc837b04f5831daeb321359e18cdabab5745" in
  let cs := map (fun c : string => c) capabilities in
  (capabilityHash, strings_Join cs " ").

(** A field assignment [server.f = v] through the pointer [server]: a nil
    pointer makes the run panic. *)
Definition assignThrough (server : option Server) (upd : Server -> Server)
    : outcome (option Server) :=
  match server with
  | None => Panics
  | Some s => Returns (Some (upd s))
  end.

(** A field read [server.f] through the pointer [server]. *)
Definition readThrough (server : option Server) : outcome Server :=
  match server with
  | None => Panics
  | Some s => Returns s
  end.

(** The loop [for i, context := range server.config.ContextAuthority] with
    its indexing [server.config.ZoneAuthority[i]]. *)
Fixpoint fillAuthority (contexts : list string) (i : nat) (zonesOfAuthority : list string)
    (m : list ((string * string) * bool)) : outcome (list ((string * string) * bool)) :=
  match contexts with
  | [] => Returns m
  | context :: rest =>
    match nth_error zonesOfAuthority i with
    | None => Panics
    | Some zone => fillAuthority rest (S i) zonesOfAuthority (((zone, context), true) :: m)
    end
  end.

(** [New(configPath, logLevel)].  The named result [server] is a pointer that
    starts as nil, and no statement of the body assigns to the variable
    itself: every statement that touches a field goes through it.  The two
    statements that install the log handler come first and leave no trace in
    the result. *)
Definition New (configPath : string) (logLevel : Z) : outcome (option Server * error) :=
  let server : option Server := None in
  let '(cfg, err) := loadConfig configPath in
  server <- assignThrough server (fun s =>
    mkServer cfg (authority s) (certPool s) (tlsCert s) (capabilityHash s)
      (capabilityList s) (shutdown s) (queues s) (caches s)) ;;
  match err with
  | Some e => Returns (None, Some e)
  | None =>
    server <- assignThrough server (fun s =>
      mkServer (config s) [] (certPool s) (tlsCert s) (capabilityHash s)
        (capabilityList s) (shutdown s) (queues s) (caches s)) ;;
    s <- readThrough server ;;
    auth <- fillAuthority (ContextAuthority (config s)) 0 (ZoneAuthority (config s))
              (authority s) ;;
    server <- assignThrough server (fun s =>
      mkServer (config s) auth (certPool s) (tlsCert s) (capabilityHash s)
        (capabilityList s) (shutdown s) (queues s) (caches s)) ;;
    s <- readThrough server ;;
    let '(pool, cert, err) :=
      loadTLSCertificate (TLSCertificateFile (config s)) (TLSPrivateKeyFile (config s)) in
    server <- assignThrough server (fun s =>
      mkServer (config s) (authority s) pool cert (capabilityHash s)
        (capabilityList s) (shutdown s) (queues s) (caches s)) ;;
    match err with
    | Some e => Returns (None, Some e)
    | None =>
      s <- readThrough server ;;
      let '(hash, list) := initOwnCapabilities (ConfigCapabilities (config s)) in
      server <- assignThrough server (fun s =>
        mkServer (config s) (authority s) (certPool s) (tlsCert s) hash list
          (shutdown s) (queues s) (caches s)) ;;
      s <- readThrough server ;;
      match loadRootZonePublicKey (RootZonePublicKeyPath (config s)) with
      | Some e => Returns (None, Some e)
      | None =>
        sd <- make_chan 0 ;;
        server <- assignThrough server (fun s =>
          mkServer (config s) (authority s) (certPool s) (tlsCert s) (capabilityHash s)
            (capabilityList s) (Some sd) (queues s) (caches s)) ;;
        s <- readThrough server ;;
        prio <- make_chan (PrioBufferSize (config s)) ;;
        normal <- make_chan (NormalBufferSize (config s)) ;;
        notify <- make_chan (NotificationBufferSize (config s)) ;;
        prioW <- make_chan (PrioWorkerCount (config s)) ;;
        normalW <- make_chan (NormalWorkerCount (config s)) ;;
        notifyW <- make_chan (NotificationWorkerCount (config s)) ;;
        server <- assignThrough server (fun s =>
          mkServer (config s) (authority s) (certPool s) (tlsCert s) (capabilityHash s)
            (capabilityList s) (shutdown s)
            (Some (mkInputQueues prio normal notify prioW normalW notifyW)) (caches s)) ;;
        s <- readThrough server ;;
        server <- assignThrough server (fun s' =>
          mkServer (config s') (authority s') (certPool s') (tlsCert s') (capabilityHash s')
            (capabilityList s') (shutdown s') (queues s') (Some (initCaches (config s)))) ;;
        s <- readThrough server ;;
        match loadRootZonePublicKey (RootZonePublicKeyPath (config s)) with
        | Some e => Returns (None, Some e)
        | None => Returns (server, None)
        end
      end
    end
  end.

End Server.

(* ================================================================= *)
(** * Package rainsd: the switchboard *)

Inductive NetworkAddrType : Type :=
| TCP
| OtherNetwork (code : Z).

(** [connection.Info]: the address type and, for TCP, the address in its
    textual form. *)
Record Info : Type := mkInfo {
  InfoType : NetworkAddrType;
  TCPAddr : string
}.

(** A [net.Conn], told apart by an identifier, with its remote address. *)
Record Conn : Type := mkConn {
  connID : nat;
  RemoteAddr : Info
}.

Definition NetworkAddrType_eqb (a b : NetworkAddrType) : bool :=
  match a, b with
  | TCP, TCP => true
  | OtherNetwork x, OtherNetwork y => x =? y
  | _, _ => false
  end.

Definition Info_eqb (a b : Info) : bool :=
  NetworkAddrType_eqb (InfoType a) (InfoType b) && String.eqb (TCPAddr a) (TCPAddr b).

Definition Conn_eqb (a b : Conn) : bool :=
  Nat.eqb (connID a) (connID b) && Info_eqb (RemoteAddr a) (RemoteAddr b).

(** The peer and the network as [sendTo] meets them: the [n]-th TLS dial to
    an address either yields a connection or an error, and the [n]-th CBOR
    write on a connection either succeeds or reports an error. *)
Class Network : Type := {
  tls_DialWithDialer : nat -> Info -> Conn + string;
  cbor_Marshal : nat -> Conn -> error
}.

(** The state [sendTo] acts on: the connection cache, the number of dials and
    writes made so far, the total time spent in [time.Sleep] (nanoseconds) and
    the connections a message was written to. *)
Record World : Type := mkWorld {
  connCache : list Conn;
  dials : nat;
  writes : nat;
  slept : Z;
  delivered : list Conn
}.

(** Modelled from the spec: the connection cache is declared outside the
    covered sources.  The specification describes it as "peer endpoint -> set
    of open streams. Closing any stream removes it from the set";
    [GetConnection] reports whether the peer has an open stream. *)
Definition GetConnection (w : World) (receiver : Info) : list Conn * bool :=
  let conns := filter (fun c => Info_eqb (RemoteAddr c) receiver) (connCache w) in
  (conns, negb (Nat.eqb (List.length conns) 0)).

Definition AddConnection (conn : Conn) (w : World) : World :=
  mkWorld (connCache w ++ [conn]) (dials w) (writes w) (slept w) (delivered w).

Definition CloseAndRemoveConnection (conn : Conn) (w : World) : World :=
  mkWorld (filter (fun c => negb (Conn_eqb c conn)) (connCache w))
    (dials w) (writes w) (slept w) (delivered w).

(** [time.Sleep(d)] returns at once when [d] is not positive. *)
Definition time_Sleep (d : Duration) (w : World) : World :=
  mkWorld (connCache w) (dials w) (writes w) (slept w + Z.max 0 d) (delivered w).

(** The two errors [sendTo] returns: the error of [createConnection], handed
    on as it is, and
    [errors.New("Was not able to send the mesage. No retries left")]. *)
Inductive sendError : Type :=
| ConnectError (err : string)
| NoRetriesLeft.

Section Switchboard.

Context `{Network}.

(** The capability hash of the server, a package-level variable. *)
Variable ownCapabilityHash : string.

(** The message as [sendTo] sees it: the capabilities it rewrites and the
    rest of the message. *)
Record Message : Type := mkMessage {
  MessageBody : list Byte.byte;
  MessageCapabilities : list string
}.

(** [createConnection(receiver)]. *)
Definition createConnection (receiver : Info) (w : World) : (Conn + string) * World :=
  match InfoType receiver with
  | TCP =>
    (tls_DialWithDialer (dials w) receiver,
     mkWorld (connCache w) (S (dials w)) (writes w) (slept w) (delivered w))
  | OtherNetwork _ => (inr "No matching type found for Connection info", w)
  end.

(** [writer.Marshal(&msg)] on one connection. *)
Definition Marshal (conn : Conn) (msg : Message) (w : World) : error * World :=
  match cbor_Marshal (writes w) conn with
  | Some e =>
    (Some e, mkWorld (connCache w) (dials w) (S (writes w)) (slept w) (delivered w))
  | None =>
    (None, mkWorld (connCache w) (dials w) (S (writes w)) (slept w) (delivered w ++ [conn]))
  end.

(** The first part of [sendTo]: the connections to try and the message to
    write, or the error of a failed dial, which [sendTo] returns as it is.
    The goroutine [handleConnection] started for a new connection is not
    part of the model. *)
Definition obtainConnections (msg : Message) (receiver : Info) (w : World)
    : (string * World) + (list Conn * Message * World) :=
  let '(conns, ok) := GetConnection w receiver in
  if negb ok then
    let '(r, w) := createConnection receiver w in
    match r with
    | inr err => inl (err, w)
    | inl conn =>
      let conns := conns ++ [conn] in
      let w := AddConnection conn w in
      inr (conns, mkMessage (MessageBody msg) [ownCapabilityHash], w)
    end
  else inr (conns, msg, w).

(** [for _, conn := range conns]: write to the first connection that takes
    the message, closing every connection that fails before it. *)
Fixpoint writeToFirst (conns : list Conn) (msg : Message) (w : World) : bool * World :=
  match conns with
  | [] => (false, w)
  | conn :: rest =>
    match Marshal conn msg w with
    | (Some _, w) => writeToFirst rest msg (CloseAndRemoveConnection conn w)
    | (None, w) => (true, w)
    end
  end.

(** The recursion of [sendTo]; [n] bounds the depth of the recursive calls
    and is never exhausted when it starts at [retries]. *)
Fixpoint sendTo_rec (n : nat) (msg : Message) (receiver : Info)
    (retries backoffMilliSeconds : Z) (w : World) : option sendError * World :=
  match obtainConnections msg receiver w with
  | inl (err, w) => (Some (ConnectError err), w)
  | inr (conns, msg, w) =>
    match writeToFirst conns msg w with
    | (true, w) => (None, w)
    | (false, w) =>
      if retries >? 0 then
        let w := time_Sleep (wrap64 (backoffMilliSeconds * Millisecond)) w in
        match n with
        | S n' =>
          sendTo_rec n' msg receiver (retries - 1) (wrap64 (2 * backoffMilliSeconds)) w
        | O => (Some NoRetriesLeft, w)
        end
      else (Some NoRetriesLeft, w)
    end
  end.

(** [sendTo(msg, receiver, retries, backoffMilliSeconds, ...)]: the returned
    error and the world afterwards. *)
Definition sendTo (msg : Message) (receiver : Info) (retries backoffMilliSeconds : Z)
    (w : World) : option sendError * World :=
  sendTo_rec (Z.to_nat retries) msg receiver retries backoffMilliSeconds w.

End Switchboard.

(* ================================================================= *)
(** * Package rainslib: printing signatures, comparing connection infos *)

(** [hex.EncodeToString]: two lower-case digits per byte. *)
Definition hexDigit (n : N) : ascii :=
  match n with
  | 0%N => "0"%char | 1%N => "1"%char | 2%N => "2"%char | 3%N => "3"%char
  | 4%N => "4"%char | 5%N => "5"%char | 6%N => "6"%char | 7%N => "7"%char
  | 8%N => "8"%char | 9%N => "9"%char | 10%N => "a"%char | 11%N => "b"%char
  | 12%N => "c"%char | 13%N => "d"%char | 14%N => "e"%char | _ => "f"%char
  end.

Fixpoint hex_EncodeToString (src : list Byte.byte) : string :=
  match src with
  | [] => ""
  | b :: rest =>
    String (hexDigit (Byte.to_N b / 16))
      (String (hexDigit (Byte.to_N b mod 16)) (hex_EncodeToString rest))
  end.

(** A string without a blank, as [%d] prints them. *)
Definition noSpace (s : string) : Prop :=
  forall c, In c (list_ascii_of_string s) -> c <> " "%char.

(** [Token.String()]. *)
Definition Token_String (t : list Byte.byte) : string := hex_EncodeToString t.

(** [sig.String()]: for [Ed25519] the data is asserted to be a byte slice
    without the comma-ok form. *)
Definition Signature_String (sig : Signature) : outcome string :=
  data <- match Algorithm sig with
          | Ed25519 =>
            match Data sig with
            | Nil => Returns "nil"
            | Bytes b => Returns (hex_EncodeToString b)
            | _ => Panics
            end
          | _ => Returns "notYetImplementedInString()"
          end ;;
  Returns ("keyspace=" ++ fmt_d (KeySpace sig)
           ++ ", algoType=" ++ fmt_d (SignatureAlgorithmType_int (Algorithm sig))
           ++ ", validSince=" ++ fmt_d (ValidSince sig)
           ++ ", validUntil=" ++ fmt_d (ValidUntil sig)
           ++ ", data=" ++ data)%string.

(** [net.TCPAddr]. *)
Record net_TCPAddr : Type := mkTCPAddr {
  IP : list Byte.byte;
  Port : Z;
  Zone : string
}.

(** [ConnInfo]: the address type and a pointer to the TCP address, which may
    be nil. *)
Record ConnInfo : Type := mkConnInfo {
  ConnType : NetworkAddrType;
  ConnTCPAddr : option net_TCPAddr
}.

(** [net.IP.Equal]: slices of one length are compared byte by byte, and an
    IPv4 address equals its IPv4-in-IPv6 form. *)
Definition v4InV6Prefix : list Byte.byte :=
  [Byte.x00; Byte.x00; Byte.x00; Byte.x00; Byte.x00; Byte.x00; Byte.x00; Byte.x00;
   Byte.x00; Byte.x00; Byte.xff; Byte.xff].

Definition bytes_Equal (a b : list Byte.byte) : bool :=
  if list_eq_dec Byte.byte_eq_dec a b then true else false.

Definition net_IP_Equal (ip x : list Byte.byte) : bool :=
  if Nat.eqb (List.length ip) (List.length x) then bytes_Equal ip x
  else if Nat.eqb (List.length ip) 4 && Nat.eqb (List.length x) 16 then
    bytes_Equal (firstn 12 x) v4InV6Prefix && bytes_Equal ip (skipn 12 x)
  else if Nat.eqb (List.length ip) 16 && Nat.eqb (List.length x) 4 then
    bytes_Equal (firstn 12 ip) v4InV6Prefix && bytes_Equal (skipn 12 ip) x
  else false.

(** [c.Equal(conn)].  In the TCP case both pointers are dereferenced before
    anything is compared. *)
Definition ConnInfo_Equal (c conn : ConnInfo) : outcome bool :=
  if NetworkAddrType_eqb (ConnType c) (ConnType conn) then
    match ConnType c with
    | TCP =>
      match ConnTCPAddr c, ConnTCPAddr conn with
      | Some a, Some b =>
        Returns (net_IP_Equal (IP a) (IP b) && (Port a =? Port b)
                 && String.eqb (Zone a) (Zone b))
      | _, _ => Panics
      end
    | OtherNetwork _ => Returns false
    end
  else Returns false.

(* ================================================================= *)
(** * Package util: building messages *)

(** The struct literals of the section types the message builders write;
    the struct types are declared outside the covered sources. *)
Class SectionLiterals `{Sections} : Type := {
  newQuerySection :
    string -> string -> Z -> list Z -> list Z -> QuerySection;
  newNotificationSection :
    list Byte.byte -> Z -> string -> NotificationSection
}.

Section MessageBuilders.

Context `{Sections} `{!SectionLiterals}.

(** [NewQueryMessage]. *)
Definition NewQueryMessage (name context : string) (expTime : Z) (objType : list Z)
    (queryOptions : list Z) (token : list Byte.byte) : RainsMessage :=
  let query := newQuerySection context name expTime objType queryOptions in
  mkRainsMessage token [IsQuery query] [] [].

(** The loop [for i := range tokens] of [NewNotificationsMessage], with its
    three index expressions; an index out of range panics. *)
Fixpoint appendNotifications (n i : nat) (tokens : list (list Byte.byte))
    (types : list Z) (data : list string) (content : list MessageSection)
    : outcome (list MessageSection) :=
  match n with
  | O => Returns content
  | S n' =>
    match nth_error tokens i, nth_error types i, nth_error data i with
    | Some tok, Some t, Some d =>
      appendNotifications n' (S i) tokens types data
        (content ++ [IsNotification (newNotificationSection tok t d)])
    | _, _, _ => Panics
    end
  end.

(** The zero value of [token.Token], an array of 16 bytes. *)
Definition zeroToken : list Byte.byte := repeat Byte.x00 16.

(** [NewNotificationsMessage]; [generated] is the token
    [token.GenerateToken()] hands out. *)
Definition NewNotificationsMessage (generated : list Byte.byte)
    (tokens : list (list Byte.byte)) (types : list Z) (data : list string)
    : outcome (RainsMessage * error) :=
  if negb (Nat.eqb (List.length tokens) (List.length types))
     || negb (Nat.eqb (List.length types) (List.length data))
  then Returns (mkRainsMessage zeroToken [] [] [],
                errors_New "input slices have not the same length")
  else
    content <- appendNotifications (List.length tokens) 0 tokens types data [] ;;
    Returns (mkRainsMessage generated content [] [], None).

(** [NewNotificationMessage] drops the error of [NewNotificationsMessage]. *)
Definition NewNotificationMessage (generated : list Byte.byte) (tok : list Byte.byte)
    (t : Z) (data : string) : outcome RainsMessage :=
  r <- NewNotificationsMessage generated [tok] [t] [data] ;;
  Returns (fst r).

(** The notifications [NewNotificationsMessage] is asked for, in order. *)
Fixpoint notificationsOf (tokens : list (list Byte.byte)) (types : list Z)
    (data : list string) : list MessageSection :=
  match tokens, types, data with
  | tok :: tokens', t :: types', d :: data' =>
    IsNotification (newNotificationSection tok t d) :: notificationsOf tokens' types' data'
  | _, _, _ => []
  end.

End MessageBuilders.

(* ================================================================= *)
(** * Package rainsd: what a loaded duration is *)

(** A configured number [raw] of [unit]s, as [loadConfig] stores it after
    its in-place multiplication: the exact product while that fits into a
    [time.Duration], and a negative duration for the products of the next
    [2 ^ 63] values. *)
Definition scaled (unit raw loaded : Z) : Prop :=
  (- 2 ^ 63 <= raw * unit < 2 ^ 63 -> loaded = raw * unit) /\
  (2 ^ 63 <= raw * unit < 2 ^ 64 -> loaded < 0).

(* ================================================================= *)
(** * Package zonefile: the encoder *)

Module Zonefile.

(** The keywords of the zone file format and the indentation unit are
    constants declared outside the covered sources, as is the way the [%s]
    verb prints an object value that is not a string. *)
Class Keywords : Type := {
  TypeAssertion : string;
  TypeShard : string;
  TypeName : string;
  TypeIP6 : string;
  TypeIP4 : string;
  TypeRedirection : string;
  TypeDelegation : string;
  TypeNameSet : string;
  TypeCertificate : string;
  TypeServiceInfo : string;
  TypeRegistrar : string;
  TypeRegistrant : string;
  TypeInfraKey : string;
  TypeExternalKey : string;
  TypeNextKey : string;
  TypeUnspecified : string;
  TypePTTLS : string;
  TypeCUTrustAnchor : string;
  TypeCUEndEntity : string;
  TypeNoHash : string;
  TypeSha256 : string;
  TypeSha384 : string;
  TypeSha512 : string;
  TypeFnv64 : string;
  TypeMurmur364 : string;
  TypeEd25519 : string;
  TypeKSRains : string;
  TypeSignature : string;
  indent4 : string
}.

Inductive ObjectType : Type :=
| OTName | OTIP6Addr | OTIP4Addr | OTRedirection | OTDelegation | OTNameset
| OTCertInfo | OTServiceInfo | OTRegistrar | OTRegistrant | OTInfraKey
| OTExtraKey | OTNextKey
| OTOther (code : Z).

Inductive HashAlgorithmType : Type :=
| NoHashAlgo | Sha256 | Sha384 | Sha512 | Fnv64 | Murmur364
| OtherHashAlgo (code : Z).

Inductive ProtocolType : Type :=
| PTUnspecified | PTTLS
| PTOther (code : Z).

Inductive CertificateUsage : Type :=
| CUTrustAnchor | CUEndEntity
| CUOther (code : Z).

Inductive KeySpaceID : Type :=
| RainsKeySpace
| OtherKeySpace (code : Z).

Record NameObject : Type := mkNameObject {
  NameObjectName : string;
  NameObjectTypes : list ObjectType
}.

(** [keys.PublicKey], with the fields of the embedded [PublicKeyID] the
    encoder reads; [Key] is an [interface{}]. *)
Record PublicKey : Type := mkPublicKey {
  PKKeySpace : KeySpaceID;
  PKKeyPhase : Z;
  PKValidSince : Z;
  PKValidUntil : Z;
  PKKey : iface
}.

Record CertificateObject : Type := mkCertificateObject {
  CertType : ProtocolType;
  CertUsage : CertificateUsage;
  CertHashAlgo : HashAlgorithmType;
  CertData : list Byte.byte
}.

Record ServiceInfo : Type := mkServiceInfo {
  ServiceName : string;
  ServicePort : Z;
  ServicePriority : Z
}.

(** The dynamic value of [Object.Value]. *)
Inductive ObjectValue : Type :=
| VString (s : string)
| VNameObject (n : NameObject)
| VPublicKey (k : PublicKey)
| VCertificate (c : CertificateObject)
| VServiceInfo (s : ServiceInfo)
| VOther (typeName : string).

Record Object : Type := mkObject {
  ObjType : ObjectType;
  ObjValue : ObjectValue
}.

(** [signature.Signature] as the encoder reads it. *)
Record ZSignature : Type := mkZSignature {
  SigKeyPhase : Z;
  SigValidSince : Z;
  SigValidUntil : Z;
  SigData : iface
}.

(** [sections.AssertionSection] and [sections.ShardSection]; a nil slice of
    signatures is [None]. *)
Record Assertion : Type := mkAssertion {
  SubjectName : string;
  AContent : list Object;
  ASignatures : option (list ZSignature)
}.

Record Shard : Type := mkShard {
  RangeFrom : string;
  RangeTo : string;
  SContent : list Assertion;
  SSignatures : option (list ZSignature)
}.

(** [s[n:]] on a string: a panic when [n] exceeds the length. *)
Fixpoint sliceFrom (n : nat) (s : string) : outcome string :=
  match n, s with
  | O, _ => Returns s
  | S n', String _ rest => sliceFrom n' rest
  | S _, EmptyString => Panics
  end.

Section Encoder.

Context `{Keywords}.

(** How [%s] prints an object value that is not a string. *)
Variable Sprint_s : ObjectValue -> string.

Definition fmt_s (v : ObjectValue) : string :=
  match v with
  | VString s => s
  | _ => Sprint_s v
  end.

(** [addIndentToType]. *)
Definition addIndentToType (ot : string) : outcome string :=
  let result := "          " in
  rest <- sliceFrom (String.length ot) result ;;
  Returns (ot ++ rest)%string.

(** [encodeHashAlgo]. *)
Definition encodeHashAlgo (h : HashAlgorithmType) : string :=
  match h with
  | NoHashAlgo => TypeNoHash
  | Sha256 => TypeSha256
  | Sha384 => TypeSha384
  | Sha512 => TypeSha512
  | Fnv64 => TypeFnv64
  | Murmur364 => TypeMurmur364
  | OtherHashAlgo _ => ""
  end.

(** [encodeKeySpace]. *)
Definition encodeKeySpace (keySpace : KeySpaceID) : string :=
  match keySpace with
  | RainsKeySpace => TypeKSRains
  | OtherKeySpace _ => ""
  end.

(** [encodeCertificate]. *)
Definition encodeCertificate (cert : CertificateObject) : string :=
  match CertType cert with
  | PTOther _ => ""
  | _ =>
    let pt := match CertType cert with
              | PTUnspecified => TypeUnspecified
              | _ => TypePTTLS
              end in
    match CertUsage cert with
    | CUOther _ => ""
    | _ =>
      let cu := match CertUsage cert with
                | CUTrustAnchor => TypeCUTrustAnchor
                | _ => TypeCUEndEntity
                end in
      let ca := encodeHashAlgo (CertHashAlgo cert) in
      (pt ++ " " ++ cu ++ " " ++ ca ++ " " ++ hex_EncodeToString (CertData cert))%string
    end
  end.

(** [encodeEd25519PublicKey]. *)
Definition encodeEd25519PublicKey (pkey : PublicKey) : string :=
  match PKKey pkey with
  | Ed25519PublicKey key =>
    (TypeEd25519 ++ " " ++ fmt_d (PKKeyPhase pkey) ++ " " ++ hex_EncodeToString key)%string
  | _ => ""
  end.

(** The loop of [encodeNameObject]: the keyword of every supported type, in
    order; an unsupported type is only logged. *)
Fixpoint nameObjectKeywords (types : list ObjectType) : list string :=
  match types with
  | [] => []
  | oType :: rest =>
    match oType with
    | OTName => [TypeName]
    | OTIP6Addr => [TypeIP6]
    | OTIP4Addr => [TypeIP4]
    | OTRedirection => [TypeRedirection]
    | OTDelegation => [TypeDelegation]
    | OTNameset => [TypeNameSet]
    | OTCertInfo => [TypeCertificate]
    | OTServiceInfo => [TypeServiceInfo]
    | OTRegistrar => [TypeRegistrar]
    | OTRegistrant => [TypeRegistrant]
    | OTInfraKey => [TypeInfraKey]
    | OTExtraKey => [TypeExternalKey]
    | OTNextKey => [TypeNextKey]
    | OTOther _ => []
    end ++ nameObjectKeywords rest
  end.

(** [encodeNameObject]. *)
Definition encodeNameObject (no : NameObject) : string :=
  (NameObjectName no ++ " [ "
   ++ strings_Join (nameObjectKeywords (NameObjectTypes no)) " " ++ " ]")%string.

(** One iteration of the loop of [encodeObjects]: the line of one object, or
    [None] where the function returns the empty string at once. *)
Definition encodeObject (obj : Object) (indent : string) : outcome (option string) :=
  let encoding := indent in
  match ObjType obj with
  | OTName =>
    match ObjValue obj with
    | VNameObject nameObj =>
      t <- addIndentToType TypeName ;;
      Returns (Some (encoding ++ t ++ encodeNameObject nameObj)%string)
    | _ => Returns None
    end
  | OTIP6Addr =>
    t <- addIndentToType TypeIP6 ;;
    Returns (Some (encoding ++ t ++ fmt_s (ObjValue obj))%string)
  | OTIP4Addr =>
    t <- addIndentToType TypeIP4 ;;
    Returns (Some (encoding ++ t ++ fmt_s (ObjValue obj))%string)
  | OTRedirection =>
    t <- addIndentToType TypeRedirection ;;
    Returns (Some (encoding ++ t ++ fmt_s (ObjValue obj))%string)
  | OTDelegation =>
    match ObjValue obj with
    | VPublicKey pkey =>
      t <- addIndentToType TypeDelegation ;;
      Returns (Some (encoding ++ t ++ encodeEd25519PublicKey pkey)%string)
    | _ => Returns None
    end
  | OTNameset =>
    t <- addIndentToType TypeNameSet ;;
    Returns (Some (encoding ++ t ++ fmt_s (ObjValue obj))%string)
  | OTCertInfo =>
    match ObjValue obj with
    | VCertificate cert =>
      t <- addIndentToType TypeCertificate ;;
      Returns (Some (encoding ++ t ++ encodeCertificate cert)%string)
    | _ => Returns None
    end
  | OTServiceInfo =>
    match ObjValue obj with
    | VServiceInfo srvInfo =>
      t <- addIndentToType TypeServiceInfo ;;
      Returns (Some (encoding ++ t ++ ServiceName srvInfo ++ " "
                     ++ fmt_d (ServicePort srvInfo) ++ " "
                     ++ fmt_d (ServicePriority srvInfo))%string)
    | _ => Returns None
    end
  | OTRegistrar =>
    t <- addIndentToType TypeRegistrar ;;
    Returns (Some (encoding ++ t ++ fmt_s (ObjValue obj))%string)
  | OTRegistrant =>
    t <- addIndentToType TypeRegistrant ;;
    Returns (Some (encoding ++ t ++ fmt_s (ObjValue obj))%string)
  | OTInfraKey =>
    match ObjValue obj with
    | VPublicKey pkey =>
      t <- addIndentToType TypeInfraKey ;;
      Returns (Some (encoding ++ t ++ encodeEd25519PublicKey pkey)%string)
    | _ => Returns None
    end
  | OTExtraKey =>
    match ObjValue obj with
    | VPublicKey pkey =>
      t <- addIndentToType TypeExternalKey ;;
      Returns (Some (encoding ++ t ++ encodeKeySpace (PKKeySpace pkey) ++ " "
                     ++ encodeEd25519PublicKey pkey)%string)
    | _ => Returns None
    end
  | OTNextKey =>
    match ObjValue obj with
    | VPublicKey pkey =>
      t <- addIndentToType TypeNextKey ;;
      Returns (Some (encoding ++ t ++ encodeEd25519PublicKey pkey ++ " "
                     ++ fmt_d (PKValidSince pkey) ++ " "
                     ++ fmt_d (PKValidUntil pkey))%string)
    | _ => Returns None
    end
  | OTOther _ => Returns None
  end.

(** The loop of [encodeObjects] with its accumulator [objects]. *)
Fixpoint encodeObjectsLoop (o : list Object) (indent : string) (objects : list string)
    : outcome string :=
  match o with
  | [] => Returns (strings_Join objects (String "010"%char ""))
  | obj :: rest =>
    r <- encodeObject obj indent ;;
    match r with
    | None => Returns ""
    | Some encoding => encodeObjectsLoop rest indent (objects ++ [encoding])
    end
  end.

(** [encodeObjects]. *)
Definition encodeObjects (o : list Object) (indent : string) : outcome string :=
  encodeObjectsLoop o indent [].

(** [encodeEd25519Signature]. *)
Definition encodeEd25519Signature (sig : ZSignature) : string :=
  let signature :=
    (TypeSignature ++ " " ++ TypeEd25519 ++ " " ++ TypeKSRains ++ " "
     ++ fmt_d (SigKeyPhase sig) ++ " " ++ fmt_d (SigValidSince sig) ++ " "
     ++ fmt_d (SigValidUntil sig))%string in
  match SigData sig with
  | Ed25519PublicKey pkey => (signature ++ " " ++ hex_EncodeToString pkey)%string
  | _ => signature
  end.

Definition newline : string := String "010"%char "".

(** [encodeAssertion]. *)
Definition encodeAssertion (a : Assertion) (context zone indent : string)
    (addZoneAndContext : bool) : outcome string :=
  let assertion :=
    if addZoneAndContext then
      (indent ++ TypeAssertion ++ " " ++ SubjectName a ++ " " ++ zone ++ " "
       ++ context ++ " [ ")%string
    else (indent ++ TypeAssertion ++ " " ++ SubjectName a ++ " [ ")%string in
  let signature :=
    match ASignatures a with
    | Some signatures =>
      let sigs := map encodeEd25519Signature signatures in
      match sigs with
      | [sig] => (" ( " ++ sig ++ " )" ++ newline)%string
      | _ =>
        (" ( " ++ newline ++ (indent ++ indent4)
         ++ strings_Join sigs (newline ++ indent ++ indent4) ++ newline
         ++ indent ++ ")" ++ newline)%string
      end
    | None => ""
    end in
  if (1 <? List.length (AContent a))%nat then
    objects <- encodeObjects (AContent a) (indent ++ indent4)%string ;;
    Returns (assertion ++ newline ++ objects ++ newline ++ indent ++ "]" ++ signature)%string
  else
    objects <- encodeObjects (AContent a) "" ;;
    Returns (assertion ++ objects ++ " ]" ++ signature)%string.

(** The loop [for _, assertion := range s.Content] of [encodeShard]. *)
Fixpoint encodeAssertions (content : list Assertion) (context subjectZone indent : string)
    (addZoneAndContext : bool) (acc : string) : outcome string :=
  match content with
  | [] => Returns acc
  | assertion :: rest =>
    e <- encodeAssertion assertion context subjectZone indent addZoneAndContext ;;
    encodeAssertions rest context subjectZone indent addZoneAndContext (acc ++ e)%string
  end.

(** [encodeShard]. *)
Definition encodeShard (s : Shard) (context subjectZone indent : string)
    (addZoneAndContext : bool) : outcome string :=
  let rangeFrom := RangeFrom s in
  let rangeTo := RangeTo s in
  let rangeFrom := if String.eqb rangeFrom "" then "<" else rangeFrom in
  let rangeTo := if String.eqb rangeTo "" then ">" else rangeTo in
  let shard :=
    if addZoneAndContext then
      (TypeShard ++ " " ++ subjectZone ++ " " ++ context ++ " " ++ rangeFrom ++ " "
       ++ rangeTo ++ " [" ++ newline)%string
    else (TypeShard ++ " " ++ rangeFrom ++ " " ++ rangeTo ++ " [" ++ newline)%string in
  shard <- encodeAssertions (SContent s) context subjectZone (indent ++ indent4)%string
             addZoneAndContext shard ;;
  match SSignatures s with
  | Some signatures =>
    let sigs := map encodeEd25519Signature signatures in
    match sigs with
    | [sig] => Returns (indent ++ shard ++ indent ++ "] ( " ++ sig ++ " )" ++ newline)%string
    | _ =>
      Returns (indent ++ shard ++ indent ++ "] ( " ++ newline ++ (indent ++ indent4)
               ++ strings_Join sigs (newline ++ indent ++ indent4) ++ newline
               ++ indent ++ "  )" ++ newline)%string
    end
  | None => Returns (indent ++ shard ++ indent ++ "]" ++ newline)%string
  end.

(** An object [encodeObjects] has a line for: its type is one of the
    thirteen, and its value has the Go type the case of that type asserts
    (the cases printing with [%s] take any value). *)
Definition encodable (obj : Object) : bool :=
  match ObjType obj, ObjValue obj with
  | OTName, VNameObject _ => true
  | (OTDelegation | OTInfraKey | OTExtraKey | OTNextKey), VPublicKey _ => true
  | OTCertInfo, VCertificate _ => true
  | OTServiceInfo, VServiceInfo _ => true
  | (OTIP6Addr | OTIP4Addr | OTRedirection | OTNameset | OTRegistrar | OTRegistrant), _ =>
    true
  | _, _ => false
  end.

(** Every object keyword fits into the type column of ten characters. *)
Definition keywordsFit : Prop :=
  Forall (fun keyword => (String.length keyword <= 10)%nat)
    [TypeName; TypeIP6; TypeIP4; TypeRedirection; TypeDelegation; TypeNameSet;
     TypeCertificate; TypeServiceInfo; TypeRegistrar; TypeRegistrant; TypeInfraKey;
     TypeExternalKey; TypeNextKey].

Definition supportedType (t : ObjectType) : bool :=
  match t with
  | OTOther _ => false
  | _ => true
  end.

End Encoder.

End Zonefile.

(* ================================================================= *)
(** * Inputs that reach a primitive, strict order, blanks *)

(** The inputs on which [VerifySignature] gets as far as calling
    [ed25519.Verify] or [ecdsa.Verify]: the algorithm is supported, and the
    key and the signature data have passed its type assertions. *)
Definition reachesVerifyPrimitive (sig : Signature) (publicKey : iface) : bool :=
  match Algorithm sig, publicKey, Data sig with
  | Ed25519, Ed25519PublicKey _, Bytes _ => true
  | Ecdsa256, EcdsaPublicKey _, BigInts [_; _] => true
  | Ecdsa384, EcdsaPublicKey _, BigInts [_; _] => true
  | _, _, _ => false
  end.

(** The inputs on which [SignData] gets as far as calling [ed25519.Sign] or
    [ecdsa.Sign]. *)
Definition reachesSignPrimitive (sig : Signature) (privateKey : iface) : bool :=
  match Algorithm sig, privateKey with
  | Ed25519, Ed25519PrivateKey _ => true
  | Ecdsa256, EcdsaPrivateKey _ => true
  | Ecdsa384, EcdsaPrivateKey _ => true
  | _, _ => false
  end.

(** [a] stands strictly before [b]: its kind comes earlier in the sequence,
    or both are of one kind and [a.CompareTo(b) < 0]. *)
Definition inStrictOrder `{Sections} (a b : MessageSection) : Prop :=
  match a, b with
  | IsAssertion x, IsAssertion y => CompareTo x y < 0
  | IsShard x, IsShard y => CompareTo x y < 0
  | IsZone x, IsZone y => CompareTo x y < 0
  | IsQuery x, IsQuery y => CompareTo x y < 0
  | IsNotification x, IsNotification y => CompareTo x y < 0
  | IsAddressAssertion x, IsAddressAssertion y => CompareTo x y < 0
  | IsAddressZone x, IsAddressZone y => CompareTo x y < 0
  | IsAddressQuery x, IsAddressQuery y => CompareTo x y < 0
  | _, _ =>
    match kindRank a, kindRank b with
    | Some i, Some j => (i < j)%nat
    | _, _ => False
    end
  end.

(** A string of [n] blanks. *)
Fixpoint blanks (n : nat) : string :=
  match n with
  | O => ""
  | S n' => String " "%char (blanks n')
  end.

(* ================================================================= *)
(** * Small concrete instances

    The statements below are generic in the primitives, the section types,
    the sorting routine and the environment.  These instances are small
    enough to run, and serve to exercise the statements on concrete inputs. *)

Module Toy.

(** A symmetric stand-in for a signature scheme: the public key equals the
    private key, and a signature is the key followed by the message. *)
Definition bytes_eqb (a b : list Byte.byte) : bool :=
  if list_eq_dec Byte.byte_eq_dec a b then true else false.

Definition crypto : Crypto := {|
  RandReader := bool;
  ed25519_Sign := fun sk msg => sk ++ msg;
  ed25519_Verify := fun pk msg sig => bytes_eqb sig (pk ++ msg);
  sha256_Sum256 := fun data => firstn 32 data;
  sha512_Sum384 := fun data => firstn 48 data;
  ecdsa_Sign := fun rnd sk hash =>
    if rnd then inl (D sk, Z.of_nat (List.length hash)) else inr "EOF";
  ecdsa_Verify := fun pk hash r s =>
    (r =? X pk) && (s =? Z.of_nat (List.length hash));
  ed25519_keypair := fun pk sk => pk = sk;
  ecdsa_keypair := fun pk sk => pk = PublicKey sk /\ X pk = D sk
|}.

(** Sections told apart by an integer key, compared by that key, with nothing
    inside to sort. *)
Definition keyed : SectionImpl := {|
  carrier := Z;
  Sort := fun a => a;
  CompareTo := fun a b => a - b
|}.

Definition sections : Sections := {|
  AssertionSection := keyed;
  ShardSection := keyed;
  ZoneSection := keyed;
  QuerySection := keyed;
  NotificationSection := keyed;
  AddressAssertionSection := keyed;
  AddressZoneSection := keyed;
  AddressQuerySection := keyed;
  UnsupportedSection := string;
  Unsupported_Sort := fun s => s
|}.

(** An insertion sort that puts an element behind the ones it ties with: it
    sorts, and like [sort.Slice] it does not promise to be stable. *)
Fixpoint insert {A : Type} (lt : A -> A -> bool) (x : A) (l : list A) : list A :=
  match l with
  | [] => [x]
  | y :: rest => if lt x y then x :: y :: rest else y :: insert lt x rest
  end.

Fixpoint insertionSort {A : Type} (lt : A -> A -> bool) (l : list A) : list A :=
  match l with
  | [] => []
  | x :: rest => insert lt x (insertionSort lt rest)
  end.

Definition goSort : GoSort := {| sort_Slice := @insertionSort |}.

(** A message with sections of four kinds and one section of a foreign type. *)
Definition message : RainsMessage (H := sections) :=
  mkRainsMessage []
    [IsQuery (H := sections) 5; IsAssertion (H := sections) 9;
     IsUnsupported (H := sections) "*PshardSection"; IsAssertion (H := sections) 2;
     IsAddressQuery (H := sections) 1; IsShard (H := sections) 4]
    [] [].

(** The same message without the foreign section. *)
Definition knownMessage : RainsMessage (H := sections) :=
  mkRainsMessage []
    [IsQuery (H := sections) 5; IsAssertion (H := sections) 9;
     IsAssertion (H := sections) 2; IsAddressQuery (H := sections) 1;
     IsShard (H := sections) 4]
    [] [].

(** A file system in which the empty path cannot be created, and a gob
    encoder that rejects a value without payload. *)
Definition fileSystem : FileSystem := {|
  FSWorld := list (string * list Byte.byte);
  File := string;
  GobValue := option (list Byte.byte);
  os_Create := fun path w =>
    if String.eqb path "" then ((None, Some "open : no such file or directory"), w)
    else ((Some path, None), (path, []) :: w);
  gob_Encode := fun file object w =>
    match file, object with
    | Some path, Some data => Returns (None, (path, data) :: w)
    | _, _ => Returns (Some "gob: cannot encode nil value", w)
    end;
  File_Close := fun _ w => w
|}.

(** A peer whose TLS dial always fails. *)
Definition dialFails : Network := {|
  tls_DialWithDialer := fun _ _ => inr "dial tcp: connection refused";
  cbor_Marshal := fun _ _ => None
|}.

(** A peer that accepts every TLS dial and fails every write. *)
Definition writeFails : Network := {|
  tls_DialWithDialer := fun n receiver => inl (mkConn n receiver);
  cbor_Marshal := fun _ _ => Some "write: broken pipe"
|}.

Definition peer : Info := mkInfo TCP "192.0.2.1:5022".

Definition idle : World := mkWorld [] 0 0 0 [].

Definition hello : Message := mkMessage [] [].

(** The sections of [knownMessage] in another order, and in sorted order. *)
Definition shuffledMessage : RainsMessage (H := sections) :=
  mkRainsMessage []
    [IsAssertion (H := sections) 9; IsAssertion (H := sections) 2;
     IsQuery (H := sections) 5; IsShard (H := sections) 4;
     IsAddressQuery (H := sections) 1]
    [] [].

Definition orderedMessage : RainsMessage (H := sections) :=
  mkRainsMessage []
    [IsAddressQuery (H := sections) 1; IsAssertion (H := sections) 2;
     IsAssertion (H := sections) 9; IsShard (H := sections) 4;
     IsQuery (H := sections) 5]
    [] [].

(** Section literals for the keyed sections: a query is keyed by its
    expiration, a notification by its type. *)
Definition literals : @SectionLiterals sections :=
  @Build_SectionLiterals sections
    (fun _ _ expTime _ _ => expTime : carrier keyed)
    (fun _ t _ => t : carrier keyed).

(** An environment whose configuration file holds a keep-alive period of 60
    seconds and validities of 720 hours. *)
Definition rawConfig : rainsdConfig :=
  mkConfig "data/keys/rootDelegationAssertion.gob" 60 300 "data/cert/server.crt"
    "data/cert/server.key" 1000 100000 20 2 10 2 ["urn:x-rains:tlssrv"] 5 0 5 0 0
    (mkMaxCacheValidity 720 720 720 0 0) ["."] ["ch."].

Definition serverEnv : ServerEnv := {|
  CertPool := unit;
  Certificate := unit;
  Caches := unit;
  zeroCertificate := tt;
  ioutil_ReadFile := fun path =>
    if String.eqb path "" then ([], Some "open : no such file or directory")
    else ([Byte.x7b; Byte.x7d], None);
  json_Unmarshal := fun _ _ => (rawConfig, None);
  x509_NewCertPool := tt;
  AppendCertsFromPEM := fun pool _ => (pool, true);
  tls_LoadX509KeyPair := fun _ _ => (tt, None);
  loadRootZonePublicKey := fun _ => None;
  initCaches := fun _ => tt
|}.

(** Keywords of a zone file, none longer than the type column. *)
Definition keywords : Zonefile.Keywords := {|
  Zonefile.TypeAssertion := ":A:";
  Zonefile.TypeShard := ":S:";
  Zonefile.TypeName := ":name:";
  Zonefile.TypeIP6 := ":ip6:";
  Zonefile.TypeIP4 := ":ip4:";
  Zonefile.TypeRedirection := ":redir:";
  Zonefile.TypeDelegation := ":deleg:";
  Zonefile.TypeNameSet := ":nameset:";
  Zonefile.TypeCertificate := ":cert:";
  Zonefile.TypeServiceInfo := ":srv:";
  Zonefile.TypeRegistrar := ":regr:";
  Zonefile.TypeRegistrant := ":regt:";
  Zonefile.TypeInfraKey := ":infra:";
  Zonefile.TypeExternalKey := ":extra:";
  Zonefile.TypeNextKey := ":next:";
  Zonefile.TypeUnspecified := ":unspecified:";
  Zonefile.TypePTTLS := ":tls:";
  Zonefile.TypeCUTrustAnchor := ":trustAnchor:";
  Zonefile.TypeCUEndEntity := ":endEntity:";
  Zonefile.TypeNoHash := ":noHash:";
  Zonefile.TypeSha256 := ":sha256:";
  Zonefile.TypeSha384 := ":sha384:";
  Zonefile.TypeSha512 := ":sha512:";
  Zonefile.TypeFnv64 := ":fnv64:";
  Zonefile.TypeMurmur364 := ":murmur364:";
  Zonefile.TypeEd25519 := ":ed25519:";
  Zonefile.TypeKSRains := ":rains:";
  Zonefile.TypeSignature := ":sig:";
  Zonefile.indent4 := "    "
|}.

Definition render (v : Zonefile.ObjectValue) : string := "%!s(?)".

(** An address object, and a name object whose value is a plain string. *)
Definition ip4Object : Zonefile.Object :=
  Zonefile.mkObject Zonefile.OTIP4Addr (Zonefile.VString "192.0.2.1").

Definition brokenNameObject : Zonefile.Object :=
  Zonefile.mkObject Zonefile.OTName (Zonefile.VString "example").

(** A shard with two assertions that carry no signatures. *)
Definition unsignedShard : Zonefile.Shard :=
  Zonefile.mkShard "" "m"
    [Zonefile.mkAssertion "a" [ip4Object] None;
     Zonefile.mkAssertion "b" [ip4Object] None]
    None.

(** Sections that carry a sort key and a payload outside the key, as
    signatures are: two sections with one key compare as equal. *)
Definition tied : SectionImpl := {|
  carrier := Z * Z;
  Sort := fun a => a;
  CompareTo := fun a b => fst a - fst b
|}.

Definition tiedSections : Sections := {|
  AssertionSection := tied;
  ShardSection := tied;
  ZoneSection := tied;
  QuerySection := tied;
  NotificationSection := tied;
  AddressAssertionSection := tied;
  AddressZoneSection := tied;
  AddressQuerySection := tied;
  UnsupportedSection := string;
  Unsupported_Sort := fun s => s
|}.


(** A message in strict order. *)
Definition strictMessage : RainsMessage (H := tiedSections) :=
  mkRainsMessage []
    [IsAddressQuery (H := tiedSections) (1, 0); IsAssertion (H := tiedSections) (2, 10);
     IsAssertion (H := tiedSections) (9, 20); IsQuery (H := tiedSections) (5, 0)]
    [] [].

(** Values handed to the gob encoder: a nil pointer, on which [Encode]
    panics, a value of a type gob cannot encode, and an encodable value. *)
Inductive gobValue : Type :=
| NilPointer
| Unencodable
| Encodable (data : list Byte.byte).

Definition gobFiles : FileSystem := {|
  FSWorld := list (string * list Byte.byte);
  File := string;
  GobValue := gobValue;
  os_Create := fun path w =>
    if String.eqb path "" then ((None, Some "open : no such file or directory"), w)
    else ((Some path, None), (path, []) :: w);
  gob_Encode := fun file object w =>
    match object with
    | NilPointer => Panics
    | Unencodable => Returns (Some "gob: type not registered", w)
    | Encodable data =>
      match file with
      | Some path => Returns (None, (path, data) :: w)
      | None => Returns (Some "invalid argument", w)
      end
    end;
  File_Close := fun _ w => w
|}.

End Toy.

(* ================================================================= *)
(** * Signatures: signing and verifying *)

Section SignatureFacts.

Context `{Crypto} `{Sections}.

(** The [SignatureFormatEncoder] in use; its implementation lies outside the
    covered sources. *)
Variable EncodeSection : MessageSection -> string.

Lemma GetSignatureMetaData_set_Data (sig : Signature) (d : iface) :
  GetSignatureMetaData (set_Data sig d) = GetSignatureMetaData sig.
Proof. reflexivity. Qed.

(** C1: for every section and every key pair that matches the signature's
    algorithm, [SignData] on the section's canonical encoding returns, and
    when it returns the nil error, [VerifySignature] on the same encoding with
    the public key returns true.  The only error signing can report with a
    matching key pair is a failure of the ECDSA primitive itself. *)
Theorem sign_then_verify `{!CryptoCorrect} :
  forall (sec : MessageSection) (sig : Signature) (pk sk : iface) (rnd : RandReader),
    keypair_for (Algorithm sig) pk sk ->
    exists sig' err,
      SignData sig sk (EncodeSection sec) rnd = Returns (sig', err) /\
      match err with
      | None => VerifySignature sig' pk (EncodeSection sec) = Returns true
      | Some e => ecdsa_primitive_failed sig sk (EncodeSection sec) rnd e
      end.
Proof.
  intros sec sig pk sk rnd Hkp.
  destruct sig as [ks alg vs vu d]; simpl in Hkp.
  inversion Hkp as [pk' sk' Hpair Halg | pk' sk' Hpair Halg | pk' sk' Hpair Halg];
    subst; unfold SignData; simpl.
  - eexists _, None; split; [reflexivity|].
    unfold VerifySignature; simpl.
    rewrite GetSignatureMetaData_set_Data.
    f_equal. now apply ed25519_sound.
  - match goal with |- context [ecdsa_Sign ?r ?k ?h] => destruct (ecdsa_Sign r k h) as [[r0 s0]|e] eqn:Hsign end.
    + eexists _, None; split; [reflexivity|].
      unfold VerifySignature; simpl.
      rewrite GetSignatureMetaData_set_Data.
      f_equal. eapply ecdsa_sound; eauto.
    + eexists _, (Some e); split; [reflexivity|].
      unfold ecdsa_primitive_failed; simpl. exact Hsign.
  - match goal with |- context [ecdsa_Sign ?r ?k ?h] => destruct (ecdsa_Sign r k h) as [[r0 s0]|e] eqn:Hsign end.
    + eexists _, None; split; [reflexivity|].
      unfold VerifySignature; simpl.
      rewrite GetSignatureMetaData_set_Data.
      f_equal. eapply ecdsa_sound; eauto.
    + eexists _, (Some e); split; [reflexivity|].
      unfold ecdsa_primitive_failed; simpl. exact Hsign.
Qed.

(** C6, where the code departs from it: with algorithm [Ed25519] and an
    Ed25519 public key, signature data that is neither nil nor a byte slice
    makes [VerifySignature] panic on the unchecked assertion
    [sig.Data.([]byte)], for every key, encoding and validity. *)
Theorem VerifySignature_Ed25519_foreign_data_panics :
  forall (ks vs vu : Z) (d : iface) (pk : list Byte.byte) (encoding : string),
    match d with
    | Nil | Bytes _ => True
    | _ => VerifySignature (mkSignature ks Ed25519 vs vu d) (Ed25519PublicKey pk) encoding
           = Panics
    end.
Proof. intros ks vs vu d pk encoding. destruct d; reflexivity || exact I. Qed.

(** The ECDSA cases do check the type of the signature data. *)
Lemma VerifySignature_Ecdsa_foreign_data_false :
  forall (ks vs vu : Z) (b : list Byte.byte) (pk : iface) (encoding : string),
    VerifySignature (mkSignature ks Ecdsa256 vs vu (Bytes b)) pk encoding = Returns false /\
    VerifySignature (mkSignature ks Ecdsa384 vs vu (Bytes b)) pk encoding = Returns false.
Proof. intros; split; destruct pk; reflexivity. Qed.

End SignatureFacts.

Lemma Toy_crypto_correct : @CryptoCorrect Toy.crypto.
Proof.
  split; simpl.
  - intros pk sk msg ->. unfold Toy.bytes_eqb.
    destruct (list_eq_dec Byte.byte_eq_dec (sk ++ msg) (sk ++ msg)); congruence.
  - intros pk sk rnd hash r s [-> Hx] Hs. destruct rnd; [|discriminate].
    inversion Hs; subst. rewrite Hx, !Z.eqb_refl. reflexivity.
Qed.

Lemma sign_then_verify_witness :
  exists sig' err,
    SignData (H := Toy.crypto) (mkSignature 0 Ed25519 1543840932 2301221742 Nil)
      (Ed25519PrivateKey [Byte.x2a]) "ch . example" true = Returns (sig', err) /\
    match err with
    | None =>
      VerifySignature (H := Toy.crypto) sig' (Ed25519PublicKey [Byte.x2a]) "ch . example"
      = Returns true
    | Some e =>
      ecdsa_primitive_failed (H := Toy.crypto)
        (mkSignature 0 Ed25519 1543840932 2301221742 Nil)
        (Ed25519PrivateKey [Byte.x2a]) "ch . example" true e
    end.
Proof.
  apply (@sign_then_verify Toy.crypto Toy.sections (fun _ => "ch . example")
           Toy_crypto_correct (IsAssertion (H := Toy.sections) 7)
           (mkSignature 0 Ed25519 1543840932 2301221742 Nil)).
  simpl. constructor. reflexivity.
Defined.

(* ================================================================= *)
(** * Section validity *)

(** C2: for a section of a supported kind and all key and signature validity
    bounds, [UpdateSectionValidity] calls the section's [UpdateValidity] with
    [max sigValidSince pkeyValidSince], [min sigValidUntil pkeyValidUntil] and
    the maximum validity configured for the section's kind, which leaves the
    section with a window that begins and ends there, both ends capped at
    [now] plus that maximum. *)
Theorem UpdateSectionValidity_window :
  forall (now : Z) (s : SectionWithSig)
         (pkeyValidSince pkeyValidUntil sigValidSince sigValidUntil : Z)
         (maxVal : MaxCacheValidity) (maxValidity : Duration),
    maxValidityOf maxVal (sectionType s) = Some maxValidity ->
    exists s',
      UpdateSectionValidity now (Some s) pkeyValidSince pkeyValidUntil
        sigValidSince sigValidUntil maxVal = Some s' /\
      s' = UpdateValidity now s (Z.max sigValidSince pkeyValidSince)
             (Z.min sigValidUntil pkeyValidUntil) maxValidity /\
      sectionType s' = sectionType s /\
      validSince s' =
        Z.min (Z.max sigValidSince pkeyValidSince) (now + maxValidity / Second) /\
      validUntil s' =
        Z.min (Z.min sigValidUntil pkeyValidUntil) (now + maxValidity / Second).
Proof.
  intros now s pkS pkU sigS sigU maxVal maxValidity Hkind.
  unfold UpdateSectionValidity.
  assert (Hsw : match sectionType s with
                | AssertionSectionT => Some (AssertionValidity maxVal)
                | ShardSectionT => Some (ShardValidity maxVal)
                | ZoneSectionT => Some (ZoneValidity maxVal)
                | AddressAssertionSectionT => Some (AddressAssertionValidity maxVal)
                | AddressZoneSectionT => Some (AddressZoneValidity maxVal)
                | OtherSectionT => None
                end = Some maxValidity) by exact Hkind.
  rewrite Hsw; clear Hsw.
  destruct (pkS <? sigS) eqn:Hs; destruct (pkU <? sigU) eqn:Hu;
    [apply Z.ltb_lt in Hs | apply Z.ltb_lt in Hs | apply Z.ltb_ge in Hs | apply Z.ltb_ge in Hs];
    [apply Z.ltb_lt in Hu | apply Z.ltb_ge in Hu | apply Z.ltb_lt in Hu | apply Z.ltb_ge in Hu];
    eexists; (split; [reflexivity|]);
    (split; [unfold UpdateValidity; f_equal; f_equal; lia|]);
    simpl; (split; [reflexivity|]); split; f_equal; lia.
Qed.

Lemma UpdateSectionValidity_window_witness :
  exists s',
    UpdateSectionValidity 1543840932 (Some (mkSectionWithSig ShardSectionT 0 0))
      1543000000 1545000000 1543840000 2301221742
      (mkMaxCacheValidity (720 * Hour) (2 * Hour) (720 * Hour) (720 * Hour) (720 * Hour))
    = Some s' /\
    s' = UpdateValidity 1543840932 (mkSectionWithSig ShardSectionT 0 0)
           (Z.max 1543840000 1543000000) (Z.min 2301221742 1545000000) (2 * Hour) /\
    sectionType s' = ShardSectionT /\
    validSince s' = Z.min (Z.max 1543840000 1543000000) (1543840932 + 2 * Hour / Second) /\
    validUntil s' = Z.min (Z.min 2301221742 1545000000) (1543840932 + 2 * Hour / Second).
Proof.
  apply (UpdateSectionValidity_window 1543840932 (mkSectionWithSig ShardSectionT 0 0)
           1543000000 1545000000 1543840000 2301221742
           (mkMaxCacheValidity (720 * Hour) (2 * Hour) (720 * Hour) (720 * Hour) (720 * Hour))
           (2 * Hour)).
  reflexivity.
Defined.

(** A section of an unsupported type, and the nil interface, are left as
    they are. *)
Lemma UpdateSectionValidity_unsupported :
  forall now s pkS pkU sigS sigU maxVal,
    sectionType s = OtherSectionT ->
    UpdateSectionValidity now (Some s) pkS pkU sigS sigU maxVal = Some s.
Proof. intros now s pkS pkU sigS sigU maxVal Ht. unfold UpdateSectionValidity. now rewrite Ht. Qed.

(* ================================================================= *)
(** * Persistence *)

(** C10, as the code has it: the error [Save] returns is the error of
    [os.Create].  Whenever the encoder, if it gets called, returns (with or
    without an error), [Save] returns, and with exactly the error of the
    creation step: nil when the file was created, also when encoding failed.
    When the file was created and the encoder panics, [Save] panics. *)
Theorem Save_returns_Create_error `{FileSystem} :
  forall (path : string) (object : GobValue) (w w1 : FSWorld)
         (file : option File) (errCreate : error),
    os_Create path w = ((file, errCreate), w1) ->
    ((errCreate = None ->
      exists errEncode w2, gob_Encode file object w1 = Returns (errEncode, w2)) ->
     exists w', Save path object w = Returns (errCreate, w')) /\
    (errCreate = None -> gob_Encode file object w1 = Panics ->
     Save path object w = Panics).
Proof.
  intros path object w w1 file errCreate Hcreate. split.
  - intros Hencode. unfold Save. rewrite Hcreate.
    destruct errCreate as [e|].
    + simpl. eexists; reflexivity.
    + destruct (Hencode eq_refl) as (errEncode & w2 & Henc).
      rewrite Henc. simpl. eexists; reflexivity.
  - intros -> Hpanic. unfold Save. rewrite Hcreate, Hpanic. reflexivity.
Qed.

Lemma Save_returns_Create_error_witness :
  exists w', Save (H := Toy.fileSystem) "checkpoint/zoneKeys" None [] = Returns (None, w').
Proof.
  apply (proj1 (@Save_returns_Create_error Toy.fileSystem "checkpoint/zoneKeys" None []
                  [("checkpoint/zoneKeys", [])] (Some "checkpoint/zoneKeys") None
                  eq_refl)).
  intros _. exists (Some "gob: cannot encode nil value"), [("checkpoint/zoneKeys", [])].
  reflexivity.
Defined.

(** C10 as stated fails on a nil pointer value: the file is created, the
    encoder panics, and [Save] does not return at all. *)
Lemma Save_nil_pointer_counterexample :
  fst (fst (os_Create (FileSystem := Toy.gobFiles) "checkpoint/zoneKeys" []))
  = Some "checkpoint/zoneKeys" /\
  ~ (exists (err : error) (w' : FSWorld (FileSystem := Toy.gobFiles)),
        Save (H := Toy.gobFiles) "checkpoint/zoneKeys" Toy.NilPointer []
        = Returns (err, w')).
Proof.
  split; [reflexivity|]. intros (err & w' & Hsave). discriminate Hsave.
Qed.

(* ================================================================= *)
(** * Server construction *)

(** C8: for every configuration path and log level, and whatever the
    environment holds, [New] panics: its first statement stores the loaded
    configuration through the named result [server], which is still nil. *)
Theorem New_always_panics `{ServerEnv} :
  forall (configPath : string) (logLevel : Z), New configPath logLevel = Panics.
Proof.
  intros configPath logLevel. unfold New.
  destruct (loadConfig configPath) as [cfg err]. reflexivity.
Qed.

(** C5, where the code departs from it: the first component of
    [initOwnCapabilities] is one fixed string, whatever the capabilities. *)
Theorem initOwnCapabilities_hash_is_constant :
  forall capabilities : list string,
    fst (initOwnCapabilities capabilities)
    = "e5365a09be554ae55b855f15264dbc837b04f5831daeb321359e18cdabab5745".
Proof. intros capabilities. reflexivity. Qed.

(** No function that tells two capability lists apart can be what
    [initOwnCapabilities] computes for both. *)
Lemma initOwnCapabilities_hash_not_of_input :
  forall (hashOfSorted : list string -> string) (c1 c2 : list string),
    hashOfSorted c1 <> hashOfSorted c2 ->
    fst (initOwnCapabilities c1) <> hashOfSorted c1 \/
    fst (initOwnCapabilities c2) <> hashOfSorted c2.
Proof.
  intros h c1 c2 Hne.
  destruct (string_dec (fst (initOwnCapabilities c1)) (h c1)) as [E1|N1]; [|now left].
  right. intros E2. apply Hne. rewrite <- E1, <- E2. reflexivity.
Qed.

(** The second component keeps the order of the input. *)
Lemma initOwnCapabilities_list_unsorted :
  snd (initOwnCapabilities ["urn:x-rains:tlssrv"; "urn:x-rains:a"])
  = "urn:x-rains:tlssrv urn:x-rains:a".
Proof. reflexivity. Qed.

(* ================================================================= *)
(** * Sorting a message *)

(** ** Lists: selection, sortedness, permutations *)





Lemma StronglySorted_app {A : Type} (R : A -> A -> Prop) (l1 l2 : list A) :
  StronglySorted R l1 -> StronglySorted R l2 ->
  (forall x y, In x l1 -> In y l2 -> R x y) ->
  StronglySorted R (l1 ++ l2).
Proof.
  intros H1 H2 Hcross. induction H1 as [|a l1 Hs IH Hall]; simpl; [exact H2|].
  constructor.
  - apply IH. intros x y Hx Hy. apply Hcross; [now right | exact Hy].
  - apply Forall_app; split; [exact Hall|].
    apply Forall_forall. intros y Hy. apply Hcross; [now left | exact Hy].
Qed.

Lemma StronglySorted_map {A B : Type} (R : A -> A -> Prop) (Q : B -> B -> Prop)
    (g : A -> B) (l : list A) :
  (forall a b, R a b -> Q (g a) (g b)) ->
  StronglySorted R l -> StronglySorted Q (map g l).
Proof.
  intros HRQ Hs. induction Hs as [|a l Hs IH Hall]; simpl; constructor.
  - exact IH.
  - apply Forall_map. eapply Forall_impl; [|exact Hall]. intros b. apply HRQ.
Qed.

(** Two sorted arrangements of the same elements coincide when the order is
    antisymmetric. *)
Lemma StronglySorted_unique {A : Type} (R : A -> A -> Prop) :
  (forall a b, R a b -> R b a -> a = b) ->
  forall l1 l2 : list A,
    StronglySorted R l1 -> StronglySorted R l2 -> Permutation l1 l2 -> l1 = l2.
Proof.
  intros Hanti l1. induction l1 as [|a l1 IH]; intros l2 H1 H2 Hperm.
  - apply Permutation_nil in Hperm. now subst.
  - destruct l2 as [|b l2].
    + apply Permutation_sym, Permutation_nil in Hperm. discriminate.
    + apply StronglySorted_inv in H1. destruct H1 as [H1 Ha].
      apply StronglySorted_inv in H2. destruct H2 as [H2 Hb].
      assert (Hab : a = b).
      { assert (Hin_a : In a (b :: l2)).
        { eapply Permutation_in; [exact Hperm | now left]. }
        assert (Hin_b : In b (a :: l1)).
        { eapply Permutation_in; [apply Permutation_sym; exact Hperm | now left]. }
        destruct Hin_a as [Hba | Hin_a]; [now symmetry|].
        destruct Hin_b as [Hab' | Hin_b]; [exact Hab'|].
        apply Hanti.
        - rewrite Forall_forall in Ha. now apply Ha.
        - rewrite Forall_forall in Hb. now apply Hb. }
      subst b. f_equal. apply IH; [exact H1 | exact H2 |].
      eapply Permutation_cons_inv. exact Hperm.
Qed.

(** ** The comparison behind [less] *)

Lemma less_StrictWeakOrder (T : SectionImpl) :
  CompareLaws T -> StrictWeakOrder (@less T).
Proof.
  intros [Hflip Htrans]. split; unfold less.
  - intros a b Hab. apply Z.ltb_lt in Hab. apply Z.ltb_ge.
    apply Hflip in Hab. lia.
  - intros a b c Hab Hbc. apply Z.ltb_ge in Hab, Hbc. apply Z.ltb_ge.
    assert (Hba : CompareTo b a <= 0).
    { destruct (Z_lt_le_dec 0 (CompareTo b a)) as [Hpos|]; [|assumption].
      apply Hflip in Hpos. lia. }
    assert (Hcb : CompareTo c b <= 0).
    { destruct (Z_lt_le_dec 0 (CompareTo c b)) as [Hpos|]; [|assumption].
      apply Hflip in Hpos. lia. }
    pose proof (Htrans c b a Hcb Hba) as Hca.
    destruct (Z_lt_le_dec (CompareTo a c) 0) as [Hneg|]; [|assumption].
    apply Hflip in Hneg. lia.
Qed.

Lemma not_less_le (T : SectionImpl) :
  CompareLaws T -> forall a b : T, less b a = false -> CompareTo a b <= 0.
Proof.
  intros [Hflip _] a b Hba. unfold less in Hba. apply Z.ltb_ge in Hba.
  destruct (Z_lt_le_dec 0 (CompareTo a b)) as [Hpos|]; [|assumption].
  apply Hflip in Hpos. lia.
Qed.

Lemma sort_Slice_less_sorted `{GoSort} `{!GoSortSpec} (T : SectionImpl) (l : list T) :
  CompareLaws T ->
  StronglySorted (fun a b : T => CompareTo a b <= 0) (sort_Slice less l).
Proof.
  intros Hlaws.
  pose proof (sort_Slice_Sorted T less l (less_StrictWeakOrder T Hlaws)) as Hs.
  rewrite <- (map_id (sort_Slice less l)).
  eapply StronglySorted_map; [|exact Hs].
  intros a b. apply not_less_le. exact Hlaws.
Qed.


(** ** The loop and the eight slices *)

Section SortFacts.

Context `{Sections} `{GoSort}.

Lemma fold_collectSection (content : list MessageSection) (v : sectionSlices) :
  fold_left collectSection content v =
  let l := map MessageSection_Sort content in
  mkSlices (assertions v ++ choose asAssertion l) (shards v ++ choose asShard l)
    (zones v ++ choose asZone l) (queries v ++ choose asQuery l)
    (addressAssertions v ++ choose asAddressAssertion l)
    (addressZones v ++ choose asAddressZone l)
    (addressQueries v ++ choose asAddressQuery l)
    (notifications v ++ choose asNotification l).
Proof.
  revert v. induction content as [|sec content IH]; intros v; simpl.
  - rewrite !app_nil_r. now destruct v.
  - rewrite IH. unfold collectSection.
    destruct sec; simpl; rewrite <- ?app_assoc; reflexivity.
Qed.

(** [m.Sort()] as the concatenation of the eight sorted slices. *)
Lemma Sort_Content_groups (content : list MessageSection) :
  Sort_Content content =
  let l := map MessageSection_Sort content in
  map IsAddressQuery (sort_Slice less (choose asAddressQuery l))
  ++ map IsAddressZone (sort_Slice less (choose asAddressZone l))
  ++ map IsAddressAssertion (sort_Slice less (choose asAddressAssertion l))
  ++ map IsAssertion (sort_Slice less (choose asAssertion l))
  ++ map IsShard (sort_Slice less (choose asShard l))
  ++ map IsZone (sort_Slice less (choose asZone l))
  ++ map IsQuery (sort_Slice less (choose asQuery l))
  ++ map IsNotification (sort_Slice less (choose asNotification l)).
Proof.
  unfold Sort_Content. rewrite fold_collectSection. simpl.
  rewrite <- !app_assoc. reflexivity.
Qed.

Lemma known_sections_by_kind (l : list MessageSection) :
  Permutation (filter isKnown l)
    (map IsAddressQuery (choose asAddressQuery l)
     ++ map IsAddressZone (choose asAddressZone l)
     ++ map IsAddressAssertion (choose asAddressAssertion l)
     ++ map IsAssertion (choose asAssertion l)
     ++ map IsShard (choose asShard l)
     ++ map IsZone (choose asZone l)
     ++ map IsQuery (choose asQuery l)
     ++ map IsNotification (choose asNotification l)).
Proof.
  induction l as [|sec l IH]; simpl; [constructor|].
  destruct sec; simpl; try exact IH;
    repeat rewrite <- Permutation_middle; apply perm_skip; exact IH.
Qed.

Lemma MessageSection_Sort_filter (content : list MessageSection) :
  map MessageSection_Sort (filter isKnown content)
  = filter isKnown (map MessageSection_Sort content).
Proof.
  induction content as [|sec content IH]; simpl; [reflexivity|].
  destruct sec; simpl; now rewrite IH.
Qed.

Lemma isKnown_filter_all (content : list MessageSection) :
  Forall (fun sec => isKnown sec = true) content -> filter isKnown content = content.
Proof.
  induction 1 as [|sec content Hk _ IH]; simpl; [reflexivity|].
  now rewrite Hk, IH.
Qed.

Lemma kindRank_inOrder (a b : MessageSection) (i j : nat) :
  kindRank a = Some i -> kindRank b = Some j -> (i < j)%nat -> inOrder a b.
Proof.
  destruct a, b; simpl; intros Hi Hj Hlt;
    inversion Hi; inversion Hj; subst; solve [exact Hlt | lia].
Qed.

Lemma ranksWithin_map {T : Type} (g : T -> MessageSection) (k : nat) (l : list T) :
  (forall a, kindRank (g a) = Some k) -> ranksWithin k (S k) (map g l).
Proof.
  intros Hk. apply Forall_map, Forall_forall. intros a _. exists k. split; [apply Hk | lia].
Qed.

Lemma inOrder_app (k : nat) (l1 l2 : list MessageSection) :
  StronglySorted inOrder l1 /\ ranksWithin 0 k l1 ->
  StronglySorted inOrder l2 /\ ranksWithin k (S k) l2 ->
  StronglySorted inOrder (l1 ++ l2) /\ ranksWithin 0 (S k) (l1 ++ l2).
Proof.
  intros [Hs1 Hr1] [Hs2 Hr2]. split.
  - apply StronglySorted_app; [exact Hs1 | exact Hs2 |].
    intros x y Hx Hy.
    unfold ranksWithin in Hr1, Hr2. rewrite Forall_forall in Hr1, Hr2.
    destruct (Hr1 x Hx) as (i & Hi & Hil). destruct (Hr2 y Hy) as (j & Hj & Hjl).
    apply (kindRank_inOrder x y i j Hi Hj). lia.
  - apply Forall_app; split.
    + eapply Forall_impl; [|exact Hr1]. intros sec (i & Hi & Hil). exists i. split; [exact Hi | lia].
    + eapply Forall_impl; [|exact Hr2]. intros sec (i & Hi & Hil). exists i. split; [exact Hi | lia].
Qed.

End SortFacts.

(** ** What [Sort] does to a message *)

Section SortTheorems.

Context `{Sections} `{GoSort} `{!GoSortSpec}.

Lemma sorted_slice_inOrder (T : SectionImpl) (g : T -> MessageSection) (k : nat)
    (l : list T) :
  CompareLaws T ->
  (forall a b : T, CompareTo a b <= 0 -> inOrder (g a) (g b)) ->
  (forall a, kindRank (g a) = Some k) ->
  StronglySorted inOrder (map g (sort_Slice less l)) /\
  ranksWithin k (S k) (map g (sort_Slice less l)).
Proof.
  intros Hlaws Hg Hk. split.
  - eapply StronglySorted_map; [exact Hg|]. now apply sort_Slice_less_sorted.
  - now apply ranksWithin_map.
Qed.

Lemma Sort_Content_inOrder (content : list MessageSection) :
  forallSections CompareLaws -> StronglySorted inOrder (Sort_Content content).
Proof.
  intros (Ha & Hs & Hz & Hq & Hn & Haa & Haz & Haq).
  unfold Sort_Content.
  set (v := fold_left collectSection content emptySlices).
  assert (Hg0 : StronglySorted inOrder ([] : list MessageSection) /\ ranksWithin 0 0 []).
  { split; constructor. }
  pose proof (inOrder_app 0 _ _ Hg0
    (sorted_slice_inOrder AddressQuerySection IsAddressQuery 0 (addressQueries v) Haq
       (fun a b Hab => Hab) (fun a => eq_refl))) as Hg1.
  pose proof (inOrder_app 1 _ _ Hg1
    (sorted_slice_inOrder AddressZoneSection IsAddressZone 1 (addressZones v) Haz
       (fun a b Hab => Hab) (fun a => eq_refl))) as Hg2.
  pose proof (inOrder_app 2 _ _ Hg2
    (sorted_slice_inOrder AddressAssertionSection IsAddressAssertion 2 (addressAssertions v)
       Haa (fun a b Hab => Hab) (fun a => eq_refl))) as Hg3.
  pose proof (inOrder_app 3 _ _ Hg3
    (sorted_slice_inOrder AssertionSection IsAssertion 3 (assertions v) Ha
       (fun a b Hab => Hab) (fun a => eq_refl))) as Hg4.
  pose proof (inOrder_app 4 _ _ Hg4
    (sorted_slice_inOrder ShardSection IsShard 4 (shards v) Hs
       (fun a b Hab => Hab) (fun a => eq_refl))) as Hg5.
  pose proof (inOrder_app 5 _ _ Hg5
    (sorted_slice_inOrder ZoneSection IsZone 5 (zones v) Hz
       (fun a b Hab => Hab) (fun a => eq_refl))) as Hg6.
  pose proof (inOrder_app 6 _ _ Hg6
    (sorted_slice_inOrder QuerySection IsQuery 6 (queries v) Hq
       (fun a b Hab => Hab) (fun a => eq_refl))) as Hg7.
  pose proof (inOrder_app 7 _ _ Hg7
    (sorted_slice_inOrder NotificationSection IsNotification 7 (notifications v) Hn
       (fun a b Hab => Hab) (fun a => eq_refl))) as Hg8.
  exact (proj1 Hg8).
Qed.

Lemma Sort_Content_Permutation (content : list MessageSection) :
  Permutation (filter isKnown (map MessageSection_Sort content)) (Sort_Content content).
Proof.
  rewrite Sort_Content_groups. cbv zeta.
  rewrite known_sections_by_kind.
  repeat (apply Permutation_app; [apply Permutation_map, sort_Slice_Permutation|]).
  apply Permutation_map, sort_Slice_Permutation.
Qed.

(** C3: [m.Sort()] reorders [m.Content]: the new content holds the sections
    of the old one (those of the eight known types; all of them in a message
    of known sections), each sorted in place by its own [Sort()], and they
    stand grouped by kind in the sequence AddressQuery, AddressZone,
    AddressAssertion, Assertion, Shard, Zone, Query, Notification, and within
    a kind in nondecreasing order of [CompareTo]: of any two sections of the
    new content, the earlier one is of an earlier kind, or both are of one
    kind and the earlier one compares as not greater. *)
Theorem Sort_groups_by_kind_then_CompareTo :
  forallSections CompareLaws ->
  forall m : RainsMessage,
    Permutation (map MessageSection_Sort (filter isKnown (Content m)))
      (Content (RainsMessage_Sort m)) /\
    (Forall (fun sec => isKnown sec = true) (Content m) ->
     Permutation (map MessageSection_Sort (Content m)) (Content (RainsMessage_Sort m))) /\
    StronglySorted inOrder (Content (RainsMessage_Sort m)).
Proof.
  intros Hlaws m. simpl.
  assert (Hperm : Permutation (map MessageSection_Sort (filter isKnown (Content m)))
                    (Sort_Content (Content m))).
  { rewrite MessageSection_Sort_filter. apply Sort_Content_Permutation. }
  split; [exact Hperm|]. split.
  - intros Hall. now rewrite (isKnown_filter_all _ Hall) in Hperm.
  - now apply Sort_Content_inOrder.
Qed.

(** C9: [m.Sort()] neither adds nor duplicates a section, and it drops exactly
    the sections of a type outside the eight: the new content is a permutation
    of the known sections of the old content, each sorted in place by its own
    [Sort()]; for a message of known sections only, of all of them. *)
Theorem Sort_permutes_known_sections :
  forall m : RainsMessage,
    Permutation (map MessageSection_Sort (filter isKnown (Content m)))
      (Content (RainsMessage_Sort m)) /\
    (Forall (fun sec => isKnown sec = true) (Content m) ->
     Permutation (map MessageSection_Sort (Content m)) (Content (RainsMessage_Sort m))) /\
    Forall (fun sec => isKnown sec = true) (Content (RainsMessage_Sort m)).
Proof.
  intros m.
  assert (Hperm : Permutation (map MessageSection_Sort (filter isKnown (Content m)))
                    (Content (RainsMessage_Sort m))).
  { simpl. rewrite Sort_Content_groups. cbv zeta.
    rewrite MessageSection_Sort_filter.
    rewrite known_sections_by_kind.
    repeat (apply Permutation_app;
            [apply Permutation_map, sort_Slice_Permutation|]).
    apply Permutation_map, sort_Slice_Permutation. }
  split; [exact Hperm|]. split.
  - intros Hall. rewrite (isKnown_filter_all _ Hall) in Hperm. exact Hperm.
  - eapply Permutation_Forall; [exact Hperm|].
    rewrite MessageSection_Sort_filter.
    apply Forall_forall. intros sec Hin. apply filter_In in Hin. tauto.
Qed.


Lemma map_fixed {A : Type} (f : A -> A) (l : list A) :
  Forall (fun a => f a = a) l -> map f l = l.
Proof. induction 1 as [|a l Ha _ IH]; simpl; [reflexivity | now rewrite Ha, IH]. Qed.



End SortTheorems.

(** ** The statements on a concrete message *)

Lemma Toy_insert_Permutation {A : Type} (lt : A -> A -> bool) (x : A) (l : list A) :
  Permutation (x :: l) (Toy.insert lt x l).
Proof.
  induction l as [|y l IH]; simpl; [apply Permutation_refl|].
  destruct (lt x y); [apply Permutation_refl|].
  eapply perm_trans; [apply perm_swap|]. now apply perm_skip.
Qed.

Lemma Toy_insertionSort_Permutation {A : Type} (lt : A -> A -> bool) (l : list A) :
  Permutation l (Toy.insertionSort lt l).
Proof.
  induction l as [|x l IH]; simpl; [constructor|].
  eapply perm_trans; [apply perm_skip, IH | apply Toy_insert_Permutation].
Qed.

Lemma Toy_insert_sorted {A : Type} (lt : A -> A -> bool) (x : A) (l : list A) :
  StrictWeakOrder lt ->
  StronglySorted (fun a b => lt b a = false) l ->
  StronglySorted (fun a b => lt b a = false) (Toy.insert lt x l).
Proof.
  intros [Hasym Hneg] Hs. induction Hs as [|y l Hs IH Hall]; simpl.
  - constructor; constructor.
  - destruct (lt x y) eqn:Hxy.
    + constructor; [now constructor|].
      constructor; [now apply Hasym|].
      eapply Forall_impl; [|exact Hall]. intros z Hzy; simpl in Hzy.
      apply (Hneg z y x); [exact Hzy | now apply Hasym].
    + constructor; [exact IH|].
      eapply Permutation_Forall; [apply Toy_insert_Permutation|].
      constructor; assumption.
Qed.

Lemma Toy_goSort_spec : @GoSortSpec Toy.goSort.
Proof.
  split; simpl.
  - intros A lt l. apply Toy_insertionSort_Permutation.
  - intros A lt l Hswo. induction l as [|x l IH]; simpl; [constructor|].
    now apply Toy_insert_sorted.
Qed.

Lemma Toy_keyed_total : TotalOrderLaws Toy.keyed.
Proof.
  split; [split|..]; simpl; intros; lia || reflexivity.
Qed.

Lemma Toy_sections_total : forallSections (H := Toy.sections) TotalOrderLaws.
Proof. repeat split; try apply Toy_keyed_total. Qed.

Lemma Toy_sections_compare : forallSections (H := Toy.sections) CompareLaws.
Proof. repeat split; try apply Toy_keyed_total. Qed.

Example Toy_message_sorted :
  Content (RainsMessage_Sort (H0 := Toy.goSort) Toy.message)
  = [IsAddressQuery (H := Toy.sections) 1; IsAssertion (H := Toy.sections) 2;
     IsAssertion (H := Toy.sections) 9; IsShard (H := Toy.sections) 4;
     IsQuery (H := Toy.sections) 5].
Proof. reflexivity. Qed.

Lemma Sort_groups_by_kind_then_CompareTo_witness :
  Permutation
    (map (MessageSection_Sort (H := Toy.sections)) (filter isKnown (Content Toy.message)))
    (Content (RainsMessage_Sort (H0 := Toy.goSort) Toy.message)) /\
  StronglySorted (inOrder (H := Toy.sections))
    (Content (RainsMessage_Sort (H0 := Toy.goSort) Toy.message)).
Proof.
  destruct (@Sort_groups_by_kind_then_CompareTo Toy.sections Toy.goSort Toy_goSort_spec
              Toy_sections_compare Toy.message) as (Hperm & _ & Hsorted).
  split; [exact Hperm | exact Hsorted].
Defined.


Lemma Sort_permutes_known_sections_witness :
  Permutation (map (MessageSection_Sort (H := Toy.sections)) (Content Toy.knownMessage))
    (Content (RainsMessage_Sort (H0 := Toy.goSort) Toy.knownMessage)).
Proof.
  apply (@Sort_permutes_known_sections Toy.sections Toy.goSort Toy_goSort_spec
           Toy.knownMessage).
  repeat constructor.
Defined.

Lemma Toy_tied_compare : forallSections (H := Toy.tiedSections) CompareLaws.
Proof.
  assert (Hlaws : CompareLaws Toy.tied).
  { split; simpl; intros; lia. }
  repeat split; try apply Hlaws.
Qed.


(* ================================================================= *)
(** * The switchboard: sending with retries *)

Lemma wrap64_small (z : Z) : - 2 ^ 63 <= z < 2 ^ 63 -> wrap64 z = z.
Proof. intros Hz. unfold wrap64. rewrite Z.mod_small; lia. Qed.

Section SwitchboardFacts.

Context `{Network}.

Variable ownCapabilityHash : string.

Lemma obtainConnections_slept (msg : Message) (receiver : Info) (w : World) :
  match obtainConnections ownCapabilityHash msg receiver w with
  | inl (_, w1) => slept w1 = slept w
  | inr (_, _, w1) => slept w1 = slept w
  end.
Proof.
  unfold obtainConnections, GetConnection, createConnection.
  destruct (negb _); [|reflexivity].
  destruct (InfoType receiver); [|reflexivity].
  destruct (tls_DialWithDialer (dials w) receiver); reflexivity.
Qed.

Lemma writeToFirst_slept (conns : list Conn) (msg : Message) (w : World) :
  slept (snd (writeToFirst conns msg w)) = slept w.
Proof.
  revert w. induction conns as [|conn conns IH]; intros w; simpl; [reflexivity|].
  unfold Marshal. destruct (cbor_Marshal (writes w) conn); [|reflexivity].
  rewrite IH. reflexivity.
Qed.

Lemma sendTo_dial_failure (msg : Message) (receiver : Info) (retries backoff : Z)
    (w w1 : World) (err : string) :
  obtainConnections ownCapabilityHash msg receiver w = inl (err, w1) ->
  sendTo ownCapabilityHash msg receiver retries backoff w = (Some (ConnectError err), w1) /\
  slept w1 = slept w.
Proof.
  intros Hobtain. split.
  - unfold sendTo.
    destruct (Z.to_nat retries); simpl; now rewrite Hobtain.
  - pose proof (obtainConnections_slept msg receiver w) as Hs.
    now rewrite Hobtain in Hs.
Qed.

Lemma sendTo_write_failure_retry (msg msg1 : Message) (receiver : Info)
    (retries backoff : Z) (w w1 w2 : World) (conns : list Conn) :
  obtainConnections ownCapabilityHash msg receiver w = inr (conns, msg1, w1) ->
  writeToFirst conns msg1 w1 = (false, w2) ->
  0 < retries ->
  sendTo ownCapabilityHash msg receiver retries backoff w
  = sendTo ownCapabilityHash msg1 receiver (retries - 1) (wrap64 (2 * backoff))
      (time_Sleep (wrap64 (backoff * Millisecond)) w2).
Proof.
  intros Hobtain Hwrite Hpos.
  unfold sendTo.
  replace (Z.to_nat retries) with (S (Z.to_nat (retries - 1))) by lia.
  simpl. rewrite Hobtain, Hwrite.
  destruct (retries >? 0) eqn:Hgt; [reflexivity|].
  rewrite Z.gtb_ltb in Hgt. apply Z.ltb_ge in Hgt. lia.
Qed.

Lemma sendTo_write_failure_exhausted (msg msg1 : Message) (receiver : Info)
    (retries backoff : Z) (w w1 w2 : World) (conns : list Conn) :
  obtainConnections ownCapabilityHash msg receiver w = inr (conns, msg1, w1) ->
  writeToFirst conns msg1 w1 = (false, w2) ->
  retries <= 0 ->
  sendTo ownCapabilityHash msg receiver retries backoff w = (Some NoRetriesLeft, w2).
Proof.
  intros Hobtain Hwrite Hneg.
  unfold sendTo.
  replace (Z.to_nat retries) with 0%nat by lia.
  simpl. rewrite Hobtain, Hwrite.
  destruct (retries >? 0) eqn:Hgt; [|reflexivity].
  rewrite Z.gtb_ltb in Hgt. apply Z.ltb_lt in Hgt. lia.
Qed.

(** The total time slept by a call that ends with the no-retries-left error:
    [backoff + 2 * backoff + ...], one term per retry. *)
Lemma sendTo_rec_total_sleep (n : nat) :
  forall (msg : Message) (receiver : Info) (backoff : Z) (w w' : World),
    0 <= backoff ->
    backoff * 2 ^ Z.of_nat n * Millisecond < 2 ^ 63 ->
    sendTo_rec ownCapabilityHash n msg receiver (Z.of_nat n) backoff w = (Some NoRetriesLeft, w') ->
    slept w' = slept w + backoff * (2 ^ Z.of_nat n - 1) * Millisecond.
Proof.
  induction n as [|n IH]; intros msg receiver backoff w w' Hb Hrange Hres.
  - simpl in Hres.
    pose proof (obtainConnections_slept msg receiver w) as Hs1.
    destruct (obtainConnections ownCapabilityHash msg receiver w) as [[e w1] | [[conns msg1] w1]];
      [discriminate|].
    pose proof (writeToFirst_slept conns msg1 w1) as Hs2.
    destruct (writeToFirst conns msg1 w1) as [[|] w2]; [discriminate|].
    simpl in Hs2. inversion Hres; subst. simpl. lia.
  - cbn [sendTo_rec] in Hres.
    pose proof (obtainConnections_slept msg receiver w) as Hs1.
    destruct (obtainConnections ownCapabilityHash msg receiver w) as [[e w1] | [[conns msg1] w1]];
      [discriminate|].
    pose proof (writeToFirst_slept conns msg1 w1) as Hs2.
    destruct (writeToFirst conns msg1 w1) as [[|] w2]; [discriminate|].
    simpl in Hs2.
    destruct (Z.of_nat (S n) >? 0) eqn:Hgt;
      [|rewrite Z.gtb_ltb in Hgt; apply Z.ltb_ge in Hgt; lia].
    assert (Hpow : 2 ^ Z.of_nat (S n) = 2 * 2 ^ Z.of_nat n).
    { rewrite Nat2Z.inj_succ, Z.pow_succ_r by lia. reflexivity. }
    assert (Hpos : 0 < 2 ^ Z.of_nat n) by (apply Z.pow_pos_nonneg; lia).
    assert (Hms : Millisecond = 1000000) by reflexivity.
    replace (Z.of_nat (S n) - 1) with (Z.of_nat n) in Hres by lia.
    rewrite (wrap64_small (2 * backoff)) in Hres by nia.
    rewrite (wrap64_small (backoff * Millisecond)) in Hres by nia.
    apply IH in Hres; [| lia | nia].
    rewrite Hres. unfold time_Sleep; cbn [slept]. rewrite Hs2, Hs1, Hpow. nia.
Qed.

End SwitchboardFacts.

(** C4, as the code has it: a failure to establish a connection is returned
    at once, without sleeping and whatever [retries] is.  When connections
    were obtained and none took the write, a call with [retries > 0] sleeps
    [backoffMilliSeconds] and goes on as the call with [retries - 1] and twice
    the backoff; a call with no retries left returns the no-retries-left
    error.  A caller that gets that error has slept
    [backoff * (2 ^ retries - 1)] milliseconds in total: 30 ms for
    [retries = 2] and [backoffMs = 10]. *)
Theorem sendTo_retries_after_failed_writes `{Network} (ownCapabilityHash : string) :
  forall (msg : Message) (receiver : Info) (retries backoff : Z) (w : World),
    (forall err w1,
        obtainConnections ownCapabilityHash msg receiver w = inl (err, w1) ->
        sendTo ownCapabilityHash msg receiver retries backoff w
        = (Some (ConnectError err), w1) /\
        slept w1 = slept w) /\
    (forall conns msg1 w1 w2,
        obtainConnections ownCapabilityHash msg receiver w = inr (conns, msg1, w1) ->
        writeToFirst conns msg1 w1 = (false, w2) ->
        (0 < retries ->
         sendTo ownCapabilityHash msg receiver retries backoff w
         = sendTo ownCapabilityHash msg1 receiver (retries - 1) (wrap64 (2 * backoff))
             (time_Sleep (wrap64 (backoff * Millisecond)) w2)) /\
        (retries <= 0 ->
         sendTo ownCapabilityHash msg receiver retries backoff w = (Some NoRetriesLeft, w2))) /\
    (forall w',
        0 <= retries -> 0 <= backoff ->
        backoff * 2 ^ retries * Millisecond < 2 ^ 63 ->
        sendTo ownCapabilityHash msg receiver retries backoff w = (Some NoRetriesLeft, w') ->
        slept w' = slept w + backoff * (2 ^ retries - 1) * Millisecond).
Proof.
  intros msg receiver retries backoff w. split; [|split].
  - intros err w1. apply sendTo_dial_failure.
  - intros conns msg1 w1 w2 Hobtain Hwrite. split.
    + now apply sendTo_write_failure_retry with (w1 := w1) (conns := conns).
    + now apply sendTo_write_failure_exhausted with (msg1 := msg1) (w1 := w1) (conns := conns).
  - intros w' Hr Hb Hrange Hres. unfold sendTo in Hres.
    pose proof (sendTo_rec_total_sleep ownCapabilityHash (Z.to_nat retries)
                  msg receiver backoff w w' Hb) as Hsleep.
    rewrite Z2Nat.id in Hsleep by exact Hr.
    now apply Hsleep.
Qed.

Lemma sendTo_retries_after_failed_writes_witness :
  slept (snd (sendTo (H := Toy.writeFails) "e5365a09" Toy.hello Toy.peer 2 10 Toy.idle))
  = slept Toy.idle + 10 * (2 ^ 2 - 1) * Millisecond.
Proof.
  apply (proj2 (proj2 (@sendTo_retries_after_failed_writes Toy.writeFails "e5365a09"
                         Toy.hello Toy.peer 2 10 Toy.idle))).
  - lia.
  - lia.
  - reflexivity.
  - reflexivity.
Defined.

(** C4 as stated fails on a peer whose TLS dial always fails: with
    [retries = 2] and [backoffMs = 10] the caller gets the error of the dial
    without any sleep. *)
Lemma sendTo_dial_failure_counterexample :
  ~ (forall (e : sendError) (w' : World),
        sendTo (H := Toy.dialFails) "e5365a09" Toy.hello Toy.peer 2 10 Toy.idle = (Some e, w') ->
        30 * Millisecond <= slept w' - slept Toy.idle).
Proof.
  intros Hclaim.
  pose proof (Hclaim (ConnectError "dial tcp: connection refused")
                (mkWorld [] 1 0 0 []) eq_refl) as Hsleep.
  unfold Millisecond in Hsleep. simpl in Hsleep. lia.
Qed.

Example sendTo_dial_failure_no_sleep :
  sendTo (H := Toy.dialFails) "e5365a09" Toy.hello Toy.peer 2 10 Toy.idle
  = (Some (ConnectError "dial tcp: connection refused"), mkWorld [] 1 0 0 []).
Proof. reflexivity. Qed.

Example sendTo_write_failure_sleeps_30ms :
  sendTo (H := Toy.writeFails) "e5365a09" Toy.hello Toy.peer 2 10 Toy.idle
  = (Some NoRetriesLeft, mkWorld [] 3 3 (30 * Millisecond) []).
Proof. reflexivity. Qed.

(* ================================================================= *)
(** * Further properties of signing and verifying *)

Section SignatureEdges.

Context `{Crypto}.

(** X1: Before it reaches a primitive, [VerifySignature] panics in exactly one
    situation.  On every input that does not get as far as the call of
    [ed25519.Verify] or [ecdsa.Verify] (what the primitives do with the keys
    they are handed is theirs), it panics when the algorithm is [Ed25519], the
    public key has the Ed25519 type and the signature data is neither nil nor
    a byte slice, and it returns false otherwise. *)
Theorem VerifySignature_before_primitive :
  forall (sig : Signature) (publicKey : iface) (encoding : string),
    reachesVerifyPrimitive sig publicKey = false ->
    (VerifySignature sig publicKey encoding = Panics <->
     Algorithm sig = Ed25519 /\
     (exists k, publicKey = Ed25519PublicKey k) /\
     Data sig <> Nil /\
     (forall b, Data sig <> Bytes b)) /\
    (VerifySignature sig publicKey encoding <> Panics ->
     VerifySignature sig publicKey encoding = Returns false).
Proof.
  intros [ks alg vs vu d] pk encoding.
  unfold reachesVerifyPrimitive, VerifySignature; simpl. intros Hreach.
  split; [split|].
  - destruct d; try discriminate;
      destruct pk; try discriminate;
      destruct alg; try discriminate;
      try (match goal with |- context [match ?l with [] => _ | _ :: _ => _ end] =>
             destruct l as [|? [|? [|? ?]]]; discriminate end);
      intros _; (split; [reflexivity|]); (split; [eexists; reflexivity|]);
      split; intros; discriminate.
  - intros (-> & (k & ->) & Hnil & Hbytes).
    destruct d; try reflexivity.
    + now elim Hnil.
    + now elim (Hbytes b).
  - destruct d; try reflexivity;
      destruct pk; try reflexivity;
      destruct alg; try reflexivity; try discriminate Hreach;
      try (intros Hno; now elim Hno);
      match goal with |- context [match ?l with [] => _ | _ :: _ => _ end] =>
        destruct l as [|? [|? [|? ?]]]; try reflexivity; discriminate Hreach end.
Qed.

(** X2: [VerifySignature] returns true only through a primitive: the algorithm
    is one of the three supported ones, the key and the signature data have
    the Go types of that algorithm, and the primitive accepts the encoding
    followed by the signature's meta data.  In particular nothing verifies
    under [Ed448] or an unknown algorithm. *)
Theorem VerifySignature_true_iff :
  forall (sig : Signature) (publicKey : iface) (encoding : string),
    VerifySignature sig publicKey encoding = Returns true <->
    let data := list_byte_of_string (encoding ++ GetSignatureMetaData sig)%string in
    (Algorithm sig = Ed25519 /\
     exists k b, publicKey = Ed25519PublicKey k /\ Data sig = Bytes b /\
                 ed25519_Verify k data b = true) \/
    (Algorithm sig = Ecdsa256 /\
     exists k r s, publicKey = EcdsaPublicKey k /\ Data sig = BigInts [r; s] /\
                   ecdsa_Verify k (sha256_Sum256 data) r s = true) \/
    (Algorithm sig = Ecdsa384 /\
     exists k r s, publicKey = EcdsaPublicKey k /\ Data sig = BigInts [r; s] /\
                   ecdsa_Verify k (sha512_Sum384 data) r s = true).
Proof.
  intros [ks alg vs vu d] pk encoding; cbv zeta; simpl. split.
  - unfold VerifySignature; simpl.
    destruct d; try discriminate;
      destruct pk; try discriminate;
      destruct alg; try discriminate;
      try (match goal with |- context [match ?l with [] => _ | _ :: _ => _ end] =>
             destruct l as [|? [|? [|? ?]]]; try discriminate end);
      intros Hv; inversion Hv as [Hprim]; rewrite Hprim.
    + left. split; [reflexivity|]. eexists _, _. repeat split. exact Hprim.
    + right; left. split; [reflexivity|]. eexists _, _, _. repeat split. exact Hprim.
    + right; right. split; [reflexivity|]. eexists _, _, _. repeat split. exact Hprim.
  - intros [(-> & k & b & -> & -> & Hp) | [(-> & k & r & s & -> & -> & Hp)
                                           | (-> & k & r & s & -> & -> & Hp)]];
      unfold VerifySignature; simpl; now rewrite Hp.
Qed.

(** X3: Before it reaches a primitive, [SignData] panics in exactly one
    situation.  On every input that does not get as far as the call of
    [ed25519.Sign] or [ecdsa.Sign], it panics when the algorithm is [Ed25519]
    and the private key is a non-nil value of another type than
    [ed25519.PrivateKey] (the argument list of its [log.Debug] call asserts
    the type unchecked), and otherwise it returns an error and leaves the
    signature as it was; the ECDSA cases return an error on a key of another
    type. *)
Theorem SignData_before_primitive :
  forall (sig : Signature) (privateKey : iface) (encoding : string) (rnd : RandReader),
    reachesSignPrimitive sig privateKey = false ->
    (SignData sig privateKey encoding rnd = Panics <->
     Algorithm sig = Ed25519 /\
     privateKey <> Nil /\
     (forall k, privateKey <> Ed25519PrivateKey k)) /\
    (SignData sig privateKey encoding rnd <> Panics ->
     exists e, SignData sig privateKey encoding rnd = Returns (sig, Some e)).
Proof.
  intros [ks alg vs vu d] sk encoding rnd.
  unfold reachesSignPrimitive, SignData; simpl. intros Hreach.
  split; [split|].
  - destruct sk; try discriminate; destruct alg; try discriminate;
      intros _; (split; [reflexivity|]); split; intros; discriminate.
  - intros (-> & Hnil & Hkey).
    destruct sk; try reflexivity.
    + now elim Hnil.
    + now elim (Hkey k).
  - destruct sk; destruct alg; try discriminate Hreach;
      try (intros Hno; now elim Hno);
      intros _; eexists; reflexivity.
Qed.

(** X4: Whatever [SignData] returns, the signature keeps its key space,
    algorithm and validity; with an error it is returned untouched, and
    without one its data is a byte slice (Ed25519) or a pair of integers
    (ECDSA). *)
Theorem SignData_changes_only_Data :
  forall (sig sig' : Signature) (privateKey : iface) (encoding : string)
         (rnd : RandReader) (err : error),
    SignData sig privateKey encoding rnd = Returns (sig', err) ->
    KeySpace sig' = KeySpace sig /\ Algorithm sig' = Algorithm sig /\
    ValidSince sig' = ValidSince sig /\ ValidUntil sig' = ValidUntil sig /\
    match err with
    | Some _ => sig' = sig
    | None =>
      match Algorithm sig with
      | Ed25519 => exists b, Data sig' = Bytes b
      | _ => exists r s, Data sig' = BigInts [r; s]
      end
    end.
Proof.
  intros [ks alg vs vu d] sig' sk encoding rnd err. unfold SignData; simpl.
  destruct sk; destruct alg; simpl;
    try (match goal with |- context [ecdsa_Sign ?r ?k ?h] =>
           destruct (ecdsa_Sign r k h) as [[? ?]|?] end);
    intros Hres; inversion Hres; subst; simpl;
    repeat split; eauto.
Qed.

End SignatureEdges.

Lemma VerifySignature_before_primitive_witness :
  VerifySignature (H := Toy.crypto) (mkSignature 0 Ed25519 10 20 (BigInts [1; 2]))
    (Ed25519PublicKey []) "" = Panics.
Proof.
  apply (@VerifySignature_before_primitive Toy.crypto
           (mkSignature 0 Ed25519 10 20 (BigInts [1; 2])) (Ed25519PublicKey []) "");
    [reflexivity|].
  split; [reflexivity|]. split; [eexists; reflexivity|].
  split; intros; discriminate.
Defined.

Lemma SignData_before_primitive_witness :
  SignData (H := Toy.crypto) (mkSignature 0 Ed25519 10 20 Nil)
    (EcdsaPrivateKey {| PublicKey := {| Curve := "P-256"; X := 1; Y := 2 |}; D := 3 |})
    "" true = Panics.
Proof.
  apply (@SignData_before_primitive Toy.crypto (mkSignature 0 Ed25519 10 20 Nil)
           (EcdsaPrivateKey {| PublicKey := {| Curve := "P-256"; X := 1; Y := 2 |}; D := 3 |})
           "" true); [reflexivity|].
  split; [reflexivity|]. split; intros; discriminate.
Defined.

Lemma SignData_changes_only_Data_witness :
  let sig := mkSignature 0 Ed25519 10 20 Nil in
  let sig' :=
    set_Data sig
      (Bytes (ed25519_Sign (Crypto := Toy.crypto) [Byte.x2a]
                (list_byte_of_string ("ch . example" ++ GetSignatureMetaData sig)%string))) in
  KeySpace sig' = KeySpace sig /\ Algorithm sig' = Algorithm sig /\
  ValidSince sig' = ValidSince sig /\ ValidUntil sig' = ValidUntil sig /\
  exists b, Data sig' = Bytes b.
Proof.
  intros sig sig'.
  exact (@SignData_changes_only_Data Toy.crypto sig sig' (Ed25519PrivateKey [Byte.x2a])
           "ch . example" true None eq_refl).
Defined.

(** ** The signature meta data *)

Lemma string_of_uint_noSpace (d : Decimal.uint) :
  noSpace (NilEmpty.string_of_uint d).
Proof.
  induction d; simpl; intros c Hin; try contradiction;
    (destruct Hin as [<- | Hin]; [discriminate | now apply IHd]).
Qed.

Lemma fmt_d_noSpace (z : Z) : noSpace (fmt_d z).
Proof.
  unfold fmt_d, NilZero.string_of_int, NilZero.string_of_uint.
  destruct (Z.to_int z) as [d|d].
  - destruct d; try apply (string_of_uint_noSpace (_ _)).
    intros c [<- | []]. discriminate.
  - intros c [<- | Hin]; [discriminate|].
    destruct d; try (revert c Hin; apply (string_of_uint_noSpace (_ _))).
    destruct Hin as [<- | []]. discriminate.
Qed.

Lemma fmt_d_inj (a b : Z) : fmt_d a = fmt_d b -> a = b.
Proof.
  unfold fmt_d. intros Heq.
  assert (Hnn : forall z, Z.to_int z <> Decimal.Pos Decimal.Nil /\
                          Z.to_int z <> Decimal.Neg Decimal.Nil).
  { intros z. destruct z as [|p|p]; simpl; split; try discriminate;
      unfold Z.to_int; intros Hp; inversion Hp as [Hp'];
      now apply (DecimalPos.Unsigned.to_uint_nonnil p). }
  apply DecimalZ.to_int_inj.
  assert (Hsome : Some (Z.to_int a) = Some (Z.to_int b)).
  { rewrite <- (NilZero.isi (Z.to_int a)) by apply Hnn.
    rewrite <- (NilZero.isi (Z.to_int b)) by apply Hnn.
    now rewrite Heq. }
  now inversion Hsome.
Qed.

Lemma append_space_inj (a a' r r' : string) :
  noSpace a -> noSpace a' ->
  (a ++ " " ++ r = a' ++ " " ++ r')%string -> a = a' /\ r = r'.
Proof.
  revert a'. induction a as [|c a IH]; intros a' Ha Ha' Heq.
  - destruct a' as [|c' a']; simpl in Heq.
    + inversion Heq. now split.
    + inversion Heq as [[Hc Hr]]. exfalso. apply (Ha' c'); [now left | now symmetry].
  - destruct a' as [|c' a']; simpl in Heq.
    + inversion Heq as [[Hc Hr]]. exfalso. apply (Ha c); [now left | exact Hc].
    + inversion Heq as [[Hc Hr]]. subst c'.
      destruct (IH a') as [-> ->]; [| | exact Hr | now split].
      * intros x Hx. apply Ha. now right.
      * intros x Hx. apply Ha'. now right.
Qed.

(** X5: The meta data string determines the four numbers it is printed from: two
    signatures with the same meta data agree on key space, algorithm code and
    both validity bounds. *)
Theorem GetSignatureMetaData_injective :
  forall sig1 sig2 : Signature,
    GetSignatureMetaData sig1 = GetSignatureMetaData sig2 ->
    KeySpace sig1 = KeySpace sig2 /\
    SignatureAlgorithmType_int (Algorithm sig1) = SignatureAlgorithmType_int (Algorithm sig2) /\
    ValidSince sig1 = ValidSince sig2 /\
    ValidUntil sig1 = ValidUntil sig2.
Proof.
  intros sig1 sig2. unfold GetSignatureMetaData. intros Heq.
  apply append_space_inj in Heq; try apply fmt_d_noSpace. destruct Heq as [Hk Heq].
  apply append_space_inj in Heq; try apply fmt_d_noSpace. destruct Heq as [Ha Heq].
  apply append_space_inj in Heq; try apply fmt_d_noSpace. destruct Heq as [Hs Hu].
  repeat split; now apply fmt_d_inj.
Qed.

Lemma GetSignatureMetaData_injective_witness :
  KeySpace (mkSignature 0 Ed25519 1543840932 2301221742 Nil)
  = KeySpace (mkSignature 0 (OtherAlgorithm 1) 1543840932 2301221742 (Bytes [])) /\
  SignatureAlgorithmType_int (Algorithm (mkSignature 0 Ed25519 1543840932 2301221742 Nil))
  = SignatureAlgorithmType_int
      (Algorithm (mkSignature 0 (OtherAlgorithm 1) 1543840932 2301221742 (Bytes []))) /\
  ValidSince (mkSignature 0 Ed25519 1543840932 2301221742 Nil)
  = ValidSince (mkSignature 0 (OtherAlgorithm 1) 1543840932 2301221742 (Bytes [])) /\
  ValidUntil (mkSignature 0 Ed25519 1543840932 2301221742 Nil)
  = ValidUntil (mkSignature 0 (OtherAlgorithm 1) 1543840932 2301221742 (Bytes [])).
Proof.
  apply GetSignatureMetaData_injective. reflexivity.
Defined.

(** X6: [sig.String()] panics exactly when the algorithm is [Ed25519] and the
    data is neither nil nor a byte slice; every other signature is printed. *)
Theorem Signature_String_panics_iff :
  forall sig : Signature,
    Signature_String sig = Panics <->
    Algorithm sig = Ed25519 /\ Data sig <> Nil /\ (forall b, Data sig <> Bytes b).
Proof.
  intros [ks alg vs vu d]; unfold Signature_String; simpl. split.
  - destruct alg; try discriminate. destruct d; try discriminate;
      intros _; repeat split; intros; discriminate.
  - intros (-> & Hnil & Hbytes). destruct d; try reflexivity.
    + now elim Hnil.
    + now elim (Hbytes b).
Qed.

(* ================================================================= *)
(** * Comparing connection infos *)

Lemma bytes_Equal_sym (a b : list Byte.byte) : bytes_Equal a b = bytes_Equal b a.
Proof.
  unfold bytes_Equal.
  destruct (list_eq_dec Byte.byte_eq_dec a b), (list_eq_dec Byte.byte_eq_dec b a);
    congruence.
Qed.

Lemma bytes_Equal_true (a b : list Byte.byte) : bytes_Equal a b = true <-> a = b.
Proof.
  unfold bytes_Equal. destruct (list_eq_dec Byte.byte_eq_dec a b); split; congruence.
Qed.

Lemma net_IP_Equal_sym (ip x : list Byte.byte) : net_IP_Equal ip x = net_IP_Equal x ip.
Proof.
  unfold net_IP_Equal. rewrite (Nat.eqb_sym (List.length x) (List.length ip)).
  destruct (Nat.eqb (List.length ip) (List.length x)) eqn:Hlen; [apply bytes_Equal_sym|].
  destruct (Nat.eqb (List.length ip) 4) eqn:H4, (Nat.eqb (List.length x) 16) eqn:H16,
           (Nat.eqb (List.length ip) 16) eqn:I16, (Nat.eqb (List.length x) 4) eqn:X4;
    simpl; try reflexivity;
    try (apply Nat.eqb_eq in H4; apply Nat.eqb_eq in I16; lia);
    try (apply Nat.eqb_eq in H16; apply Nat.eqb_eq in X4; lia);
    try (apply Nat.eqb_eq in H4; apply Nat.eqb_eq in X4; apply Nat.eqb_neq in Hlen; lia);
    try (apply Nat.eqb_eq in H16; apply Nat.eqb_eq in I16; apply Nat.eqb_neq in Hlen; lia);
    f_equal; apply bytes_Equal_sym.
Qed.

Lemma NetworkAddrType_eqb_sym (a b : NetworkAddrType) :
  NetworkAddrType_eqb a b = NetworkAddrType_eqb b a.
Proof. destruct a, b; simpl; try reflexivity. apply Z.eqb_sym. Qed.

Lemma NetworkAddrType_eqb_eq (a b : NetworkAddrType) :
  NetworkAddrType_eqb a b = true <-> a = b.
Proof.
  destruct a, b; simpl; split; try congruence; try reflexivity.
  - intros Heq. apply Z.eqb_eq in Heq. now subst.
  - intros Heq. inversion Heq. apply Z.eqb_refl.
Qed.

(** X8: [c.Equal(conn)] and [conn.Equal(c)] always agree, also in panicking. *)
Theorem ConnInfo_Equal_symmetric :
  forall c conn : ConnInfo, ConnInfo_Equal c conn = ConnInfo_Equal conn c.
Proof.
  intros [t a] [t' a']; unfold ConnInfo_Equal; simpl.
  rewrite (NetworkAddrType_eqb_sym t' t).
  destruct (NetworkAddrType_eqb t t') eqn:Ht; [|reflexivity].
  apply NetworkAddrType_eqb_eq in Ht. subst t'.
  destruct t; [|reflexivity].
  destruct a as [[ip p z]|], a' as [[ip' p' z']|]; simpl; try reflexivity.
  rewrite (net_IP_Equal_sym ip' ip), (Z.eqb_sym p' p), (String.eqb_sym z' z).
  reflexivity.
Qed.

(** X9: [Equal] returns true exactly for two TCP infos whose addresses are
    [net.IP.Equal] with the same port and zone.  An info of any other type is
    not even equal to itself. *)
Theorem ConnInfo_Equal_true_iff :
  forall c conn : ConnInfo,
    (ConnInfo_Equal c conn = Returns true <->
     ConnType c = TCP /\ ConnType conn = TCP /\
     exists a b, ConnTCPAddr c = Some a /\ ConnTCPAddr conn = Some b /\
                 net_IP_Equal (IP a) (IP b) = true /\ Port a = Port b /\ Zone a = Zone b) /\
    (ConnType c <> TCP -> ConnInfo_Equal c c = Returns false).
Proof.
  intros [t a] [t' a']; unfold ConnInfo_Equal; simpl. split; [split|].
  - destruct (NetworkAddrType_eqb t t') eqn:Ht; [|discriminate].
    apply NetworkAddrType_eqb_eq in Ht. subst t'.
    destruct t; [|discriminate].
    destruct a as [[ip p z]|], a' as [[ip' p' z']|]; simpl; try discriminate.
    intros Hres. injection Hres as Hb.
    apply andb_true_iff in Hb. destruct Hb as [Hb Hz].
    apply andb_true_iff in Hb. destruct Hb as [Hip Hp].
    apply Z.eqb_eq in Hp. apply String.eqb_eq in Hz.
    split; [reflexivity|]. split; [reflexivity|].
    exists (mkTCPAddr ip p z), (mkTCPAddr ip' p' z'). simpl. repeat split; assumption.
  - intros (-> & -> & [ip p z] & [ip' p' z'] & -> & -> & Hip & Hp & Hz).
    simpl in *. subst. now rewrite Hip, Z.eqb_refl, String.eqb_refl.
  - intros Hne. destruct t; [now elim Hne|].
    simpl. now rewrite Z.eqb_refl.
Qed.

(* ================================================================= *)
(** * Sorting as a canonical form *)

Section SortCanonical.

Context `{Sections} `{GoSort} `{!GoSortSpec}.

Lemma known_sections_Permutation (c1 c2 : list MessageSection) :
  Permutation c1 c2 -> Permutation (filter isKnown c1) (filter isKnown c2).
Proof.
  intros Hperm. induction Hperm as [| sec c1 c2 _ IH | s1 s2 c | c1 c2 c3 _ IH12 _ IH23].
  - apply Permutation_refl.
  - simpl. destruct (isKnown sec); [apply perm_skip|]; exact IH.
  - simpl. destruct (isKnown s1), (isKnown s2);
      first [apply perm_swap | apply Permutation_refl].
  - exact (perm_trans IH12 IH23).
Qed.

Lemma forallSections_CompareLaws :
  forallSections TotalOrderLaws -> forallSections CompareLaws.
Proof.
  intros (Ha & Hs & Hz & Hq & Hn & Haa & Haz & Haq).
  repeat split; now apply cmp_laws.
Qed.

Lemma CompareTo_le_antisym (T : SectionImpl) :
  TotalOrderLaws T ->
  forall a b : T, CompareTo a b <= 0 -> CompareTo b a <= 0 -> a = b.
Proof.
  intros [[Hflip _] Hzero _] a b Hab Hba. apply Hzero.
  destruct (Z_lt_le_dec (CompareTo a b) 0) as [Hneg|]; [|lia].
  apply Hflip in Hneg. lia.
Qed.

Lemma inOrder_antisym :
  forallSections TotalOrderLaws ->
  forall a b : MessageSection, inOrder a b -> inOrder b a -> a = b.
Proof.
  intros (Ha & Hs & Hz & Hq & Hn & Haa & Haz & Haq) a b.
  destruct a, b; simpl; intros Hab Hba; try lia; try contradiction;
    f_equal; eapply CompareTo_le_antisym; eassumption.
Qed.

(** X10: The order of the sections in a message does not matter to [Sort]: two
    messages that hold the same sections, in whatever order, have the same
    content once sorted. *)
Theorem Sort_is_canonical :
  forallSections TotalOrderLaws ->
  forall m1 m2 : RainsMessage,
    Permutation (Content m1) (Content m2) ->
    Content (RainsMessage_Sort m1) = Content (RainsMessage_Sort m2).
Proof.
  intros Hlaws m1 m2 Hperm. simpl.
  apply (StronglySorted_unique inOrder (inOrder_antisym Hlaws)).
  - apply Sort_Content_inOrder, forallSections_CompareLaws, Hlaws.
  - apply Sort_Content_inOrder, forallSections_CompareLaws, Hlaws.
  - eapply perm_trans; [apply Permutation_sym, Sort_Content_Permutation|].
    eapply perm_trans; [|apply Sort_Content_Permutation].
    apply known_sections_Permutation, Permutation_map, Hperm.
Qed.

Lemma inStrictOrder_not_inOrder :
  forallSections CompareLaws ->
  forall a b : MessageSection, inStrictOrder a b -> inOrder b a -> False.
Proof.
  intros (Ha & Hs & Hz & Hq & Hn & Haa & Haz & Haq) a b.
  destruct a, b; simpl; intros Hab Hba; try lia; try contradiction;
    match goal with
    | Hlt : CompareTo ?x ?y < 0 |- _ =>
      first [ apply (cmp_flip _ Ha) in Hlt | apply (cmp_flip _ Hs) in Hlt
            | apply (cmp_flip _ Hz) in Hlt | apply (cmp_flip _ Hq) in Hlt
            | apply (cmp_flip _ Hn) in Hlt | apply (cmp_flip _ Haa) in Hlt
            | apply (cmp_flip _ Haz) in Hlt | apply (cmp_flip _ Haq) in Hlt ]; lia
    end.
Qed.

(** A strictly ascending arrangement is the only sorted arrangement of its
    elements. *)
Lemma strictly_sorted_unique {A : Type} (R Q : A -> A -> Prop) :
  (forall a b, R a b -> Q b a -> False) ->
  forall l1 l2 : list A,
    StronglySorted R l1 -> StronglySorted Q l2 -> Permutation l1 l2 -> l1 = l2.
Proof.
  intros Hstrict l1. induction l1 as [|a l1 IH]; intros l2 Hs1 Hs2 Hperm.
  - apply Permutation_nil in Hperm. now subst.
  - destruct l2 as [|b l2].
    + apply Permutation_sym, Permutation_nil in Hperm. discriminate.
    + apply StronglySorted_inv in Hs1. destruct Hs1 as [Hs1 Ha].
      apply StronglySorted_inv in Hs2. destruct Hs2 as [Hs2 Hb].
      rewrite Forall_forall in Ha, Hb.
      assert (Hab : a = b).
      { assert (Hin_a : In a (b :: l2))
          by (eapply Permutation_in; [exact Hperm | now left]).
        assert (Hin_b : In b (a :: l1))
          by (eapply Permutation_in; [apply Permutation_sym; exact Hperm | now left]).
        destruct Hin_a as [Hba | Hin_a]; [now symmetry|].
        destruct Hin_b as [Hab' | Hin_b]; [exact Hab'|].
        elim (Hstrict a b); [now apply Ha | now apply Hb]. }
      subst b. f_equal. apply IH; [exact Hs1 | exact Hs2 |].
      eapply Permutation_cons_inv. exact Hperm.
Qed.

(** X11: A message that is already in strict order is left as it is: when the
    sections are all of known types, each is unchanged by its own [Sort()],
    and they stand in kind order and, within a kind, in strictly ascending
    [CompareTo] order (no two of them compare as 0), [Sort] returns the very
    same content.  [CompareTo] need not tell all distinct sections apart. *)
Theorem Sort_fixes_strictly_ordered_messages :
  forallSections CompareLaws ->
  forall m : RainsMessage,
    Forall (fun sec => isKnown sec = true) (Content m) ->
    Forall (fun sec => MessageSection_Sort sec = sec) (Content m) ->
    StronglySorted inStrictOrder (Content m) ->
    Content (RainsMessage_Sort m) = Content m.
Proof.
  intros Hlaws m Hknown Hfixed Hsorted. simpl. symmetry.
  apply (strictly_sorted_unique inStrictOrder inOrder (inStrictOrder_not_inOrder Hlaws)).
  - exact Hsorted.
  - now apply Sort_Content_inOrder.
  - eapply perm_trans; [|apply Sort_Content_Permutation].
    rewrite (map_fixed _ _ Hfixed), (isKnown_filter_all _ Hknown).
    apply Permutation_refl.
Qed.

End SortCanonical.

Lemma Sort_is_canonical_witness :
  Content (RainsMessage_Sort (H0 := Toy.goSort) Toy.knownMessage)
  = Content (RainsMessage_Sort (H0 := Toy.goSort) Toy.shuffledMessage).
Proof.
  apply (@Sort_is_canonical Toy.sections Toy.goSort Toy_goSort_spec Toy_sections_total
           Toy.knownMessage Toy.shuffledMessage).
  simpl.
  apply perm_trans with
    (IsAssertion (H := Toy.sections) 9 :: IsQuery (H := Toy.sections) 5
       :: IsAssertion (H := Toy.sections) 2 :: IsAddressQuery (H := Toy.sections) 1
       :: [IsShard (H := Toy.sections) 4]).
  - apply perm_swap.
  - apply perm_skip.
    apply perm_trans with
      (IsAssertion (H := Toy.sections) 2 :: IsQuery (H := Toy.sections) 5
         :: IsAddressQuery (H := Toy.sections) 1 :: [IsShard (H := Toy.sections) 4]).
    + apply perm_swap.
    + apply perm_skip, perm_skip, perm_swap.
Defined.

Lemma Sort_fixes_strictly_ordered_messages_witness :
  Content (RainsMessage_Sort (H0 := Toy.goSort) Toy.strictMessage)
  = Content Toy.strictMessage.
Proof.
  apply (@Sort_fixes_strictly_ordered_messages Toy.tiedSections Toy.goSort Toy_goSort_spec
           Toy_tied_compare Toy.strictMessage).
  - repeat constructor.
  - repeat constructor.
  - repeat constructor; simpl; lia.
Defined.

(* ================================================================= *)
(** * What a call of [sendTo] costs and leaves behind *)

Section SwitchboardBounds.

Context `{Network}.

Variable ownCapabilityHash : string.

Lemma obtainConnections_effects (msg : Message) (receiver : Info) (w : World) :
  match obtainConnections ownCapabilityHash msg receiver w with
  | inl (_, w1) | inr (_, _, w1) =>
    (dials w <= dials w1 <= S (dials w))%nat /\ delivered w1 = delivered w /\
    slept w1 = slept w
  end.
Proof.
  unfold obtainConnections, GetConnection, createConnection.
  destruct (negb _); [|simpl; repeat split; lia].
  destruct (InfoType receiver); [|simpl; repeat split; lia].
  destruct (tls_DialWithDialer (dials w) receiver); simpl; repeat split; lia.
Qed.

Lemma writeToFirst_effects (conns : list Conn) (msg : Message) (w : World) :
  let r := writeToFirst conns msg w in
  dials (snd r) = dials w /\ slept (snd r) = slept w /\
  if fst r then exists conn, In conn conns /\ delivered (snd r) = delivered w ++ [conn]
  else delivered (snd r) = delivered w.
Proof.
  revert w. induction conns as [|conn conns IH]; intros w; simpl.
  - repeat split.
  - unfold Marshal. destruct (cbor_Marshal (writes w) conn) as [e|].
    + specialize (IH (CloseAndRemoveConnection conn
                        (mkWorld (connCache w) (dials w) (S (writes w)) (slept w)
                           (delivered w)))).
      simpl in IH. destruct IH as (Hd & Hs & Hdel).
      split; [exact Hd|]. split; [exact Hs|].
      destruct (fst (writeToFirst conns msg _)).
      * destruct Hdel as (c & Hin & Hdel). exists c. split; [now right | exact Hdel].
      * exact Hdel.
    + simpl. repeat split. exists conn. split; [now left | reflexivity].
Qed.

Lemma sendTo_rec_effects (n : nat) :
  forall (msg : Message) (receiver : Info) (retries backoff : Z) (w : World),
    let r := sendTo_rec ownCapabilityHash n msg receiver retries backoff w in
    (dials w <= dials (snd r) <= dials w + n + 1)%nat /\
    slept w <= slept (snd r) /\
    match fst r with
    | None => exists conn, delivered (snd r) = delivered w ++ [conn]
    | Some _ => delivered (snd r) = delivered w
    end.
Proof.
  induction n as [|n IH]; intros msg receiver retries backoff w; cbn [sendTo_rec];
    pose proof (obtainConnections_effects msg receiver w) as Ho;
    destruct (obtainConnections ownCapabilityHash msg receiver w)
      as [[e w1] | [[conns msg1] w1]];
    destruct Ho as (Hd1 & Hdel1 & Hs1);
    try (simpl; repeat split; try lia; exact Hdel1);
    pose proof (writeToFirst_effects conns msg1 w1) as Hw; cbv zeta in Hw;
    destruct (writeToFirst conns msg1 w1) as [[|] w2]; simpl in Hw;
    destruct Hw as (Hd2 & Hs2 & Hdel2).
  - simpl. repeat split; try lia. destruct Hdel2 as (c & _ & Hdel2).
    exists c. now rewrite Hdel2, Hdel1.
  - destruct (retries >? 0); simpl; repeat split; try lia; congruence.
  - simpl. repeat split; try lia. destruct Hdel2 as (c & _ & Hdel2).
    exists c. now rewrite Hdel2, Hdel1.
  - destruct (retries >? 0); [|simpl; repeat split; try lia; congruence].
    specialize (IH msg1 receiver (retries - 1) (wrap64 (2 * backoff))
                  (time_Sleep (wrap64 (backoff * Millisecond)) w2)).
    cbv zeta in IH.
    set (r := sendTo_rec ownCapabilityHash n msg1 receiver (retries - 1)
                (wrap64 (2 * backoff))
                (time_Sleep (wrap64 (backoff * Millisecond)) w2)) in *.
    destruct IH as (Hd & Hs & Hdel).
    unfold time_Sleep in Hd, Hs, Hdel; cbn [dials slept delivered] in Hd, Hs, Hdel.
    split; [lia|]. split; [lia|].
    destruct (fst r).
    + now rewrite Hdel, Hdel2, Hdel1.
    + destruct Hdel as (c & Hdel). exists c. now rewrite Hdel, Hdel2, Hdel1.
Qed.

Lemma sendTo_rec_sleep_bound (n : nat) :
  forall (msg : Message) (receiver : Info) (backoff : Z) (w : World),
    0 <= backoff ->
    backoff * 2 ^ Z.of_nat n * Millisecond < 2 ^ 63 ->
    slept (snd (sendTo_rec ownCapabilityHash n msg receiver (Z.of_nat n) backoff w))
    <= slept w + backoff * (2 ^ Z.of_nat n - 1) * Millisecond.
Proof.
  assert (Hms : Millisecond = 1000000) by reflexivity.
  induction n as [|n IH]; intros msg receiver backoff w Hb Hrange.
  - cbn [sendTo_rec].
    pose proof (obtainConnections_effects msg receiver w) as Ho.
    destruct (obtainConnections ownCapabilityHash msg receiver w)
      as [[e w1] | [[conns msg1] w1]]; destruct Ho as (_ & _ & Hs1);
      [simpl; lia|].
    pose proof (writeToFirst_effects conns msg1 w1) as Hw; cbv zeta in Hw.
    destruct (writeToFirst conns msg1 w1) as [[|] w2]; simpl in Hw;
      destruct Hw as (_ & Hs2 & _); simpl; lia.
  - assert (Hpos : 0 < 2 ^ Z.of_nat n) by (apply Z.pow_pos_nonneg; lia).
    assert (Hpow : 2 ^ Z.of_nat (S n) = 2 * 2 ^ Z.of_nat n).
    { rewrite Nat2Z.inj_succ, Z.pow_succ_r by lia. reflexivity. }
    cbn [sendTo_rec].
    pose proof (obtainConnections_effects msg receiver w) as Ho.
    destruct (obtainConnections ownCapabilityHash msg receiver w)
      as [[e w1] | [[conns msg1] w1]]; destruct Ho as (_ & _ & Hs1);
      [simpl; nia|].
    pose proof (writeToFirst_effects conns msg1 w1) as Hw; cbv zeta in Hw.
    destruct (writeToFirst conns msg1 w1) as [[|] w2]; simpl in Hw;
      destruct Hw as (_ & Hs2 & _); [simpl; nia|].
    destruct (Z.of_nat (S n) >? 0) eqn:Hgt;
      [|rewrite Z.gtb_ltb in Hgt; apply Z.ltb_ge in Hgt; lia].
    replace (Z.of_nat (S n) - 1) with (Z.of_nat n) by lia.
    rewrite (wrap64_small (2 * backoff)) by nia.
    rewrite (wrap64_small (backoff * Millisecond)) by nia.
    specialize (IH msg1 receiver (2 * backoff)
                  (time_Sleep (backoff * Millisecond) w2)).
    assert (Hsl : slept (time_Sleep (backoff * Millisecond) w2)
                  = slept w + backoff * Millisecond).
    { unfold time_Sleep; cbn [slept]. nia. }
    rewrite Hsl in IH. rewrite Hpow.
    eapply Z.le_trans; [apply IH; nia|]. nia.
Qed.

End SwitchboardBounds.

(** X16: A call of [sendTo] never sleeps longer than
    [backoff + 2 * backoff + ... ] with one term per retry, that is
    [backoff * (2 ^ retries - 1)] milliseconds, whatever its result; and the
    time slept never decreases. *)
Theorem sendTo_total_sleep_bounded `{Network} (ownCapabilityHash : string) :
  forall (msg : Message) (receiver : Info) (retries backoff : Z) (w : World),
    0 <= retries -> 0 <= backoff ->
    backoff * 2 ^ retries * Millisecond < 2 ^ 63 ->
    slept w <= slept (snd (sendTo ownCapabilityHash msg receiver retries backoff w))
    <= slept w + backoff * (2 ^ retries - 1) * Millisecond.
Proof.
  intros msg receiver retries backoff w Hr Hb Hrange. unfold sendTo. split.
  - apply (sendTo_rec_effects ownCapabilityHash).
  - pose proof (sendTo_rec_sleep_bound ownCapabilityHash (Z.to_nat retries)
                  msg receiver backoff w Hb) as Hs.
    rewrite Z2Nat.id in Hs by exact Hr. now apply Hs.
Qed.

Lemma sendTo_total_sleep_bounded_witness :
  slept Toy.idle
  <= slept (snd (sendTo (H := Toy.writeFails) "e5365a09" Toy.hello Toy.peer 3 250 Toy.idle))
  <= slept Toy.idle + 250 * (2 ^ 3 - 1) * Millisecond.
Proof.
  apply (@sendTo_total_sleep_bounded Toy.writeFails "e5365a09"
           Toy.hello Toy.peer 3 250 Toy.idle).
  - lia.
  - lia.
  - reflexivity.
Defined.

(** X17: A call of [sendTo] dials the peer at most once per round: at most
    [retries + 1] times in all. *)
Theorem sendTo_dials_bounded `{Network} (ownCapabilityHash : string) :
  forall (msg : Message) (receiver : Info) (retries backoff : Z) (w : World),
    (dials w
     <= dials (snd (sendTo ownCapabilityHash msg receiver retries backoff w))
     <= dials w + Z.to_nat retries + 1)%nat.
Proof.
  intros msg receiver retries backoff w. unfold sendTo.
  apply (sendTo_rec_effects ownCapabilityHash).
Qed.

(** X18: [sendTo] returns nil exactly when the message was written to one
    connection, and it is never written twice: with a nil error one
    connection is added to those the message was delivered on, with an error
    none. *)
Theorem sendTo_delivers_at_most_once `{Network} (ownCapabilityHash : string) :
  forall (msg : Message) (receiver : Info) (retries backoff : Z) (w : World),
    match fst (sendTo ownCapabilityHash msg receiver retries backoff w) with
    | None =>
      exists conn,
        delivered (snd (sendTo ownCapabilityHash msg receiver retries backoff w))
        = delivered w ++ [conn]
    | Some _ =>
      delivered (snd (sendTo ownCapabilityHash msg receiver retries backoff w))
      = delivered w
    end.
Proof.
  intros msg receiver retries backoff w. unfold sendTo.
  apply (sendTo_rec_effects ownCapabilityHash).
Qed.

Lemma NetworkAddrType_eqb_refl (a : NetworkAddrType) : NetworkAddrType_eqb a a = true.
Proof. now apply NetworkAddrType_eqb_eq. Qed.

Lemma Conn_eqb_refl (c : Conn) : Conn_eqb c c = true.
Proof.
  unfold Conn_eqb, Info_eqb.
  now rewrite Nat.eqb_refl, NetworkAddrType_eqb_refl, String.eqb_refl.
Qed.

Section SwitchboardCleanup.

Context `{Network}.

Variable ownCapabilityHash : string.

Lemma writeToFirst_removes (conns : list Conn) (msg : Message) (w w' : World) :
  writeToFirst conns msg w = (false, w') ->
  forall c, In c (connCache w') -> In c (connCache w) /\ ~ In c conns.
Proof.
  revert w. induction conns as [|conn conns IH]; intros w Hres c Hin; simpl in Hres.
  - inversion Hres; subst. split; [exact Hin | intros []].
  - unfold Marshal in Hres.
    destruct (cbor_Marshal (writes w) conn) as [e|]; [|discriminate].
    destruct (IH _ Hres c Hin) as [Hc Hnot]. simpl in Hc.
    apply filter_In in Hc. destruct Hc as [Hc Hneq]. split; [exact Hc|].
    intros [<- | Hin']; [|now apply Hnot].
    now rewrite Conn_eqb_refl in Hneq.
Qed.

Lemma obtainConnections_covers (msg msg1 : Message) (receiver : Info) (w w1 : World)
    (conns : list Conn) :
  obtainConnections ownCapabilityHash msg receiver w = inr (conns, msg1, w1) ->
  forall c, In c (connCache w1) -> Info_eqb (RemoteAddr c) receiver = true -> In c conns.
Proof.
  unfold obtainConnections, GetConnection, createConnection.
  set (cached := filter (fun c => Info_eqb (RemoteAddr c) receiver) (connCache w)).
  destruct (negb (negb (Nat.eqb (List.length cached) 0))) eqn:Hok.
  - rewrite negb_involutive in Hok. apply Nat.eqb_eq in Hok.
    assert (Hnil : cached = []) by (destruct cached; [reflexivity | discriminate]).
    destruct (InfoType receiver); [|discriminate].
    destruct (tls_DialWithDialer (dials w) receiver) as [conn|e]; [|discriminate].
    intros Hres c Hin Hc. inversion Hres; subst; clear Hres. simpl in Hin.
    apply in_app_iff in Hin. destruct Hin as [Hin | [<- | []]].
    + assert (Hcached : In c cached) by (apply filter_In; now split).
      rewrite Hnil in Hcached. contradiction.
    + apply in_app_iff. right. now left.
  - intros Hres c Hin Hc. inversion Hres; subst; clear Hres.
    apply filter_In. now split.
Qed.

Lemma sendTo_rec_cleans_up (n : nat) :
  forall (msg : Message) (receiver : Info) (retries backoff : Z) (w w' : World),
    sendTo_rec ownCapabilityHash n msg receiver retries backoff w
    = (Some NoRetriesLeft, w') ->
    forall c, In c (connCache w') -> Info_eqb (RemoteAddr c) receiver = false.
Proof.
  assert (Hlast : forall msg msg1 receiver w w1 w2 conns,
             obtainConnections ownCapabilityHash msg receiver w = inr (conns, msg1, w1) ->
             writeToFirst conns msg1 w1 = (false, w2) ->
             forall c, In c (connCache w2) -> Info_eqb (RemoteAddr c) receiver = false).
  { intros msg msg1 receiver w w1 w2 conns Ho Hw c Hin.
    destruct (writeToFirst_removes conns msg1 w1 w2 Hw c Hin) as [Hc Hnot].
    destruct (Info_eqb (RemoteAddr c) receiver) eqn:Heq; [|reflexivity].
    elim Hnot. eapply obtainConnections_covers; eassumption. }
  induction n as [|n IH]; intros msg receiver retries backoff w w' Hres;
    cbn [sendTo_rec] in Hres;
    destruct (obtainConnections ownCapabilityHash msg receiver w)
      as [[e w1] | [[conns msg1] w1]] eqn:Ho; try discriminate;
    destruct (writeToFirst conns msg1 w1) as [[|] w2] eqn:Hw; try discriminate.
  - destruct (retries >? 0); inversion Hres; subst; clear Hres;
      apply (Hlast _ _ _ _ _ _ _ Ho Hw).
  - destruct (retries >? 0).
    + exact (IH _ _ _ _ _ _ Hres).
    + inversion Hres; subst; clear Hres. apply (Hlast _ _ _ _ _ _ _ Ho Hw).
Qed.

End SwitchboardCleanup.

(** X19: When [sendTo] gives up for lack of retries, it has closed and removed
    every cached connection to the receiver: the cache holds none for that
    peer afterwards. *)
Theorem sendTo_gives_up_with_no_connection_cached `{Network} (ownCapabilityHash : string) :
  forall (msg : Message) (receiver : Info) (retries backoff : Z) (w w' : World),
    sendTo ownCapabilityHash msg receiver retries backoff w = (Some NoRetriesLeft, w') ->
    GetConnection w' receiver = ([], false).
Proof.
  intros msg receiver retries backoff w w' Hres. unfold sendTo in Hres.
  pose proof (sendTo_rec_cleans_up ownCapabilityHash _ _ _ _ _ _ _ Hres) as Hclean.
  unfold GetConnection.
  assert (Hnil : filter (fun c => Info_eqb (RemoteAddr c) receiver) (connCache w') = []).
  { revert Hclean. generalize (connCache w') as l.
    induction l as [|c l IHl]; intros Hclean; simpl; [reflexivity|].
    rewrite (Hclean c (or_introl eq_refl)). apply IHl.
    intros c' Hc'. apply Hclean. now right. }
  now rewrite Hnil.
Qed.

Lemma sendTo_gives_up_with_no_connection_cached_witness :
  GetConnection (mkWorld [] 3 3 (30 * Millisecond) []) Toy.peer = ([], false).
Proof.
  apply (@sendTo_gives_up_with_no_connection_cached Toy.writeFails "e5365a09"
           Toy.hello Toy.peer 2 10 Toy.idle).
  reflexivity.
Defined.

(* ================================================================= *)
(** * Building messages *)

Lemma nth_error_skipn {A : Type} (l : list A) (i : nat) (x : A) :
  nth_error l i = Some x -> skipn i l = x :: skipn (S i) l.
Proof.
  revert l. induction i as [|i IH]; intros [|y l] Hn; simpl in Hn; try discriminate.
  - now inversion Hn.
  - simpl. now apply IH.
Qed.

Section MessageBuilderFacts.

Context `{Sections} `{!SectionLiterals}.

Lemma notificationsOf_nil_tokens (types : list Z) (data : list string) :
  notificationsOf [] types data = [].
Proof. reflexivity. Qed.

Lemma appendNotifications_in_range (n : nat) :
  forall (i : nat) (tokens : list (list Byte.byte)) (types : list Z) (data : list string)
         (content : list MessageSection),
    (i + n)%nat = List.length tokens ->
    List.length tokens = List.length types ->
    List.length types = List.length data ->
    appendNotifications n i tokens types data content
    = Returns (content ++ notificationsOf (skipn i tokens) (skipn i types) (skipn i data)).
Proof.
  induction n as [|n IH]; intros i tokens types data content Hi Ht Hd; simpl.
  - rewrite skipn_all2 by lia. simpl. now rewrite app_nil_r.
  - destruct (nth_error tokens i) as [tok|] eqn:Htok;
      [|apply nth_error_None in Htok; lia].
    destruct (nth_error types i) as [t|] eqn:Hty;
      [|apply nth_error_None in Hty; lia].
    destruct (nth_error data i) as [d|] eqn:Hda;
      [|apply nth_error_None in Hda; lia].
    rewrite IH by lia.
    rewrite (nth_error_skipn tokens i tok Htok), (nth_error_skipn types i t Hty),
            (nth_error_skipn data i d Hda).
    simpl. now rewrite <- app_assoc.
Qed.

(** X13: [NewNotificationsMessage] never indexes out of range: for slices of one
    length it returns the generated token with one notification per index,
    in order, and the nil error; for slices of different lengths, the empty
    message and an error.  [NewNotificationMessage], which drops that error,
    always returns a message with exactly the one notification asked for. *)
Theorem NewNotificationsMessage_zips :
  forall (generated : list Byte.byte) (tokens : list (list Byte.byte))
         (types : list Z) (data : list string),
    NewNotificationsMessage generated tokens types data
    = (if Nat.eqb (List.length tokens) (List.length types)
          && Nat.eqb (List.length types) (List.length data)
       then Returns (mkRainsMessage generated (notificationsOf tokens types data) [] [],
                     None)
       else Returns (mkRainsMessage zeroToken [] [] [],
                     errors_New "input slices have not the same length")) /\
    forall (tok : list Byte.byte) (t : Z) (d : string),
      NewNotificationMessage generated tok t d
      = Returns (mkRainsMessage generated
                   [IsNotification (newNotificationSection tok t d)] [] []).
Proof.
  intros generated tokens types data. split; [|reflexivity].
  unfold NewNotificationsMessage.
  destruct (Nat.eqb (List.length tokens) (List.length types)) eqn:Ht; simpl;
    [|reflexivity].
  destruct (Nat.eqb (List.length types) (List.length data)) eqn:Hd; simpl;
    [|reflexivity].
  apply Nat.eqb_eq in Ht, Hd.
  rewrite (appendNotifications_in_range (List.length tokens) 0) by lia.
  reflexivity.
Qed.

End MessageBuilderFacts.

(* ================================================================= *)
(** * Sorting small messages *)

(** X12: [Sort] on the smallest messages: the empty message stays empty, and a
    message of one section keeps that section, sorted by its own [Sort()],
    when its type is one of the eight, and loses it otherwise. *)
Theorem Sort_empty_and_single `{Sections} `{GoSort} `{!GoSortSpec} :
  Sort_Content [] = [] /\
  forall sec : MessageSection,
    Sort_Content [sec] = if isKnown sec then [MessageSection_Sort sec] else [].
Proof.
  split.
  - apply Permutation_nil. apply (Sort_Content_Permutation []).
  - intros sec. pose proof (Sort_Content_Permutation [sec]) as Hperm. simpl in Hperm.
    assert (Hk : isKnown (MessageSection_Sort sec) = isKnown sec) by now destruct sec.
    rewrite Hk in Hperm. destruct (isKnown sec).
    + now apply Permutation_length_1_inv in Hperm.
    + now apply Permutation_nil in Hperm.
Qed.

Lemma Sort_empty_and_single_witness :
  Sort_Content (H := Toy.sections) (H0 := Toy.goSort) [] = [] /\
  forall sec : MessageSection (H := Toy.sections),
    Sort_Content (H := Toy.sections) (H0 := Toy.goSort) [sec]
    = if isKnown sec then [MessageSection_Sort sec] else [].
Proof.
  exact (@Sort_empty_and_single Toy.sections Toy.goSort Toy_goSort_spec).
Defined.

(* ================================================================= *)
(** * Loading the configuration *)

Lemma wrap64_scaled (unit raw : Z) : scaled unit raw (wrap64 (raw * unit)).
Proof.
  unfold scaled. split.
  - apply wrap64_small.
  - intros [Hlo Hhi]. unfold wrap64.
    replace (raw * unit + 2 ^ 63) with ((raw * unit - 2 ^ 63) + 1 * 2 ^ 64) by lia.
    rewrite Z.mod_add by lia. rewrite Z.mod_small; lia.
Qed.

(** X14: [loadConfig] hands out a configuration only with the nil error: whenever
    reading or decoding the file fails, the configuration returned with the
    error is the zero value, never a partly filled one. *)
Theorem loadConfig_error_gives_zero_config `{ServerEnv} :
  forall configPath : string,
    match loadConfig configPath with
    | (cfg, Some _) => cfg = zeroConfig
    | (_, None) => True
    end.
Proof.
  intros configPath. unfold loadConfig.
  destruct (ioutil_ReadFile configPath) as [file [e|]]; [reflexivity|].
  destruct (json_Unmarshal file zeroConfig) as [raw [e|]]; [reflexivity | exact I].
Qed.

(** X15: When the file is read and decoded, [loadConfig] returns the decoded
    configuration with every timer multiplied by a second and every maximum
    validity by an hour, and everything else as decoded.  The products are
    exact while they fit into a [time.Duration]; a larger configured value
    wraps around, to a negative duration for the first values beyond the
    range (more than 9223372036 seconds, or 2562047 hours). *)
Theorem loadConfig_scales_durations `{ServerEnv} :
  forall (configPath : string) (file : list Byte.byte) (raw : rainsdConfig),
    ioutil_ReadFile configPath = (file, None) ->
    json_Unmarshal file zeroConfig = (raw, None) ->
    exists cfg,
      loadConfig configPath = (cfg, None) /\
      scaled Second (KeepAlivePeriod raw) (KeepAlivePeriod cfg) /\
      scaled Second (TCPTimeout raw) (TCPTimeout cfg) /\
      scaled Second (DelegationQueryValidity raw) (DelegationQueryValidity cfg) /\
      scaled Second (ReapVerifyTimeout raw) (ReapVerifyTimeout cfg) /\
      scaled Second (QueryValidity raw) (QueryValidity cfg) /\
      scaled Second (AddressQueryValidity raw) (AddressQueryValidity cfg) /\
      scaled Second (ReapEngineTimeout raw) (ReapEngineTimeout cfg) /\
      scaled Hour (AssertionValidity (ConfigMaxCacheValidity raw))
        (AssertionValidity (ConfigMaxCacheValidity cfg)) /\
      scaled Hour (ShardValidity (ConfigMaxCacheValidity raw))
        (ShardValidity (ConfigMaxCacheValidity cfg)) /\
      scaled Hour (ZoneValidity (ConfigMaxCacheValidity raw))
        (ZoneValidity (ConfigMaxCacheValidity cfg)) /\
      scaled Hour (AddressAssertionValidity (ConfigMaxCacheValidity raw))
        (AddressAssertionValidity (ConfigMaxCacheValidity cfg)) /\
      scaled Hour (AddressZoneValidity (ConfigMaxCacheValidity raw))
        (AddressZoneValidity (ConfigMaxCacheValidity cfg)) /\
      RootZonePublicKeyPath cfg = RootZonePublicKeyPath raw /\
      TLSCertificateFile cfg = TLSCertificateFile raw /\
      TLSPrivateKeyFile cfg = TLSPrivateKeyFile raw /\
      PrioBufferSize cfg = PrioBufferSize raw /\
      NormalBufferSize cfg = NormalBufferSize raw /\
      NotificationBufferSize cfg = NotificationBufferSize raw /\
      PrioWorkerCount cfg = PrioWorkerCount raw /\
      NormalWorkerCount cfg = NormalWorkerCount raw /\
      NotificationWorkerCount cfg = NotificationWorkerCount raw /\
      ConfigCapabilities cfg = ConfigCapabilities raw /\
      ContextAuthority cfg = ContextAuthority raw /\
      ZoneAuthority cfg = ZoneAuthority raw.
Proof.
  intros configPath file raw Hread Hjson.
  unfold loadConfig. rewrite Hread, Hjson.
  eexists. split; [reflexivity|]. simpl.
  repeat (split; [first [apply wrap64_scaled | reflexivity]|]).
  reflexivity.
Qed.

Lemma loadConfig_scales_durations_witness :
  exists cfg,
    loadConfig (H := Toy.serverEnv) "rainsd.conf" = (cfg, None) /\
    KeepAlivePeriod cfg = 60 * Second /\
    AssertionValidity (ConfigMaxCacheValidity cfg) = 720 * Hour.
Proof.
  destruct (@loadConfig_scales_durations Toy.serverEnv "rainsd.conf"
              [Byte.x7b; Byte.x7d] Toy.rawConfig eq_refl eq_refl)
    as (cfg & Hload & Hkeep & _ & _ & _ & _ & _ & _ & Hval & _).
  exists cfg. split; [exact Hload|]. split.
  - apply Hkeep. simpl. unfold Second, Millisecond. lia.
  - apply Hval. simpl. unfold Hour, Second, Millisecond. lia.
Defined.

(* ================================================================= *)
(** * The zone file encoder *)

Lemma string_append_assoc (a b c : string) : ((a ++ b) ++ c = a ++ (b ++ c))%string.
Proof. induction a as [|x a IH]; simpl; [reflexivity | now rewrite IH]. Qed.

Lemma string_append_nil_l (a : string) : ("" ++ a)%string = a.
Proof. reflexivity. Qed.

Lemma string_append_nil_r (a : string) : (a ++ "")%string = a.
Proof. induction a as [|x a IH]; simpl; [reflexivity | now rewrite IH]. Qed.

Lemma string_length_append (a b : string) :
  String.length (a ++ b) = (String.length a + String.length b)%nat.
Proof. induction a as [|x a IH]; simpl; [reflexivity | now rewrite IH]. Qed.

Lemma sliceFrom_in_range (n : nat) (s : string) :
  (n <= String.length s)%nat ->
  exists rest, Zonefile.sliceFrom n s = Returns rest /\
               String.length rest = (String.length s - n)%nat.
Proof.
  revert s. induction n as [|n IH]; intros s Hn; simpl.
  - exists s. split; [reflexivity | lia].
  - destruct s as [|c s]; simpl in Hn; [lia|].
    destruct (IH s) as (rest & Hr & Hl); [lia|].
    exists rest. split; [exact Hr | simpl; exact Hl].
Qed.

Lemma sliceFrom_out_of_range (n : nat) (s : string) :
  (String.length s < n)%nat -> Zonefile.sliceFrom n s = Panics.
Proof.
  revert s. induction n as [|n IH]; intros s Hn; simpl; [lia|].
  destruct s as [|c s]; [reflexivity|]. apply IH. simpl in Hn. lia.
Qed.

Lemma ends_with_prepend (p s suffix : string) :
  (exists body, s = (body ++ suffix)%string) ->
  exists body, (p ++ s)%string = (body ++ suffix)%string.
Proof.
  intros [body ->]. exists (p ++ body)%string. now rewrite string_append_assoc.
Qed.

Lemma ends_with_cons (c : ascii) (s suffix : string) :
  (exists body, s = (body ++ suffix)%string) ->
  exists body, String c s = (body ++ suffix)%string.
Proof. intros [body ->]. now exists (String c body). Qed.

Section ZonefileFacts.

Context `{Zonefile.Keywords}.

Variable Sprint_s : Zonefile.ObjectValue -> string.

Lemma sliceFrom_blanks (n : nat) :
  (n <= 10)%nat -> Zonefile.sliceFrom n "          " = Returns (blanks (10 - n)).
Proof.
  intros Hn. do 11 (destruct n as [|n]; [reflexivity|]). lia.
Qed.

Lemma blanks_length (n : nat) : String.length (blanks n) = n.
Proof. induction n as [|n IH]; simpl; [reflexivity | now rewrite IH]. Qed.

(** X20: [addIndentToType] pads a keyword of at most ten characters with blanks
    to a column of exactly ten: the result is the keyword followed by as many
    blanks as it is short of ten characters.  On a longer keyword it
    panics. *)
Theorem addIndentToType_pads_or_panics :
  forall ot : string,
    ((String.length ot <= 10)%nat ->
     Zonefile.addIndentToType ot
     = Returns (ot ++ blanks (10 - String.length ot))%string /\
     String.length (ot ++ blanks (10 - String.length ot)) = 10%nat) /\
    ((10 < String.length ot)%nat -> Zonefile.addIndentToType ot = Panics).
Proof.
  intros ot. unfold Zonefile.addIndentToType. split.
  - intros Hlen. rewrite (sliceFrom_blanks _ Hlen). split; [reflexivity|].
    rewrite string_length_append, blanks_length. lia.
  - intros Hlen. now rewrite sliceFrom_out_of_range.
Qed.

Lemma addIndentToType_returns (ot : string) :
  (String.length ot <= 10)%nat -> exists t, Zonefile.addIndentToType ot = Returns t.
Proof.
  intros Hlen. unfold Zonefile.addIndentToType.
  destruct (sliceFrom_in_range (String.length ot) "          ") as (rest & Hr & _);
    [exact Hlen|].
  rewrite Hr. eexists. reflexivity.
Qed.

Lemma encodeObject_not_encodable (obj : Zonefile.Object) (indent : string) :
  Zonefile.encodable obj = false ->
  Zonefile.encodeObject Sprint_s obj indent = Returns None.
Proof.
  destruct obj as [t v]. unfold Zonefile.encodable, Zonefile.encodeObject; simpl.
  destruct t, v; intros Henc; try discriminate; reflexivity.
Qed.

Lemma encodeObject_encodable (obj : Zonefile.Object) (indent : string) :
  Zonefile.keywordsFit ->
  Zonefile.encodable obj = true ->
  exists line, Zonefile.encodeObject Sprint_s obj indent = Returns (Some line).
Proof.
  intros Hfit. unfold Zonefile.keywordsFit in Hfit.
  repeat match type of Hfit with
         | Forall _ (_ :: _) =>
           let Hk := fresh "Hk" in
           apply Forall_cons_iff in Hfit; destruct Hfit as [Hk Hfit];
           apply addIndentToType_returns in Hk; destruct Hk as [? Hk]
         end.
  destruct obj as [t v]. unfold Zonefile.encodable, Zonefile.encodeObject; simpl.
  destruct t, v; intros Henc; try discriminate;
    match goal with
    | Hk : Zonefile.addIndentToType ?k = Returns _
      |- context [Zonefile.addIndentToType ?k] => rewrite Hk; simpl; eexists; reflexivity
    end.
Qed.

Lemma encodeObjectsLoop_empties (o : list Zonefile.Object) (indent : string) :
  Zonefile.keywordsFit ->
  existsb (fun obj => negb (Zonefile.encodable obj)) o = true ->
  forall objects, Zonefile.encodeObjectsLoop Sprint_s o indent objects = Returns "".
Proof.
  intros Hfit. induction o as [|obj o IH]; intros Hbad objects; simpl in *;
    [discriminate|].
  destruct (Zonefile.encodable obj) eqn:Henc; simpl in Hbad.
  - destruct (encodeObject_encodable obj indent Hfit Henc) as (line & Hline).
    rewrite Hline. simpl. now apply IH.
  - now rewrite (encodeObject_not_encodable obj indent Henc).
Qed.

Lemma encodeObjectsLoop_joins (o : list Zonefile.Object) (indent : string) :
  Zonefile.keywordsFit ->
  forallb Zonefile.encodable o = true ->
  forall objects,
  exists lines,
    List.length lines = List.length o /\
    Zonefile.encodeObjectsLoop Sprint_s o indent objects
    = Returns (strings_Join (objects ++ lines) Zonefile.newline).
Proof.
  intros Hfit. induction o as [|obj o IH]; intros Hall objects; simpl in *.
  - exists []. split; [reflexivity|]. now rewrite app_nil_r.
  - apply andb_true_iff in Hall. destruct Hall as [Henc Hall].
    destruct (encodeObject_encodable obj indent Hfit Henc) as (line & Hline).
    rewrite Hline. simpl.
    destruct (IH Hall (objects ++ [line])) as (lines & Hlen & Hres).
    exists (line :: lines). split; [simpl; now rewrite Hlen|].
    rewrite Hres. now rewrite <- app_assoc.
Qed.

(** X21: [encodeObjects] is all or nothing: when the keywords fit the type
    column, one object of an unsupported type, or with a value of another Go
    type than its object type calls for, makes the encoding of the whole list
    the empty string, wherever the object stands; and a list without such an
    object is encoded as one line per object, joined by line breaks. *)
Theorem encodeObjects_all_or_nothing :
  Zonefile.keywordsFit ->
  forall (o : list Zonefile.Object) (indent : string),
    (existsb (fun obj => negb (Zonefile.encodable obj)) o = true ->
     Zonefile.encodeObjects Sprint_s o indent = Returns "") /\
    (forallb Zonefile.encodable o = true ->
     exists lines,
       List.length lines = List.length o /\
       Zonefile.encodeObjects Sprint_s o indent
       = Returns (strings_Join lines Zonefile.newline)).
Proof.
  intros Hfit o indent. unfold Zonefile.encodeObjects. split.
  - intros Hbad. now apply encodeObjectsLoop_empties.
  - intros Hall. exact (encodeObjectsLoop_joins o indent Hfit Hall []).
Qed.

(** X22: [encodeNameObject] passes over the types it does not know: a name object
    is encoded as if those types were not in its list. *)
Theorem encodeNameObject_skips_unsupported_types :
  forall (name : string) (types : list Zonefile.ObjectType),
    Zonefile.encodeNameObject (Zonefile.mkNameObject name types)
    = Zonefile.encodeNameObject
        (Zonefile.mkNameObject name (filter Zonefile.supportedType types)).
Proof.
  intros name types. unfold Zonefile.encodeNameObject; simpl.
  assert (Hk : Zonefile.nameObjectKeywords (filter Zonefile.supportedType types)
               = Zonefile.nameObjectKeywords types).
  { induction types as [|t types IH]; simpl; [reflexivity|].
    destruct t; simpl; now rewrite IH. }
  now rewrite Hk.
Qed.

(** X23: [encodeCertificate] returns the empty string exactly for an unsupported
    protocol type or certificate usage; an unsupported hash algorithm only
    leaves its field empty. *)
Theorem encodeCertificate_empty_iff :
  forall cert : Zonefile.CertificateObject,
    Zonefile.encodeCertificate cert = "" <->
    (exists code, Zonefile.CertType cert = Zonefile.PTOther code) \/
    (exists code, Zonefile.CertUsage cert = Zonefile.CUOther code).
Proof.
  intros [pt cu ha data]. unfold Zonefile.encodeCertificate; simpl.
  assert (Hne : forall a b : string, (a ++ " " ++ b)%string <> "").
  { intros a b. destruct a; discriminate. }
  split.
  - destruct pt; [| |left; eexists; reflexivity];
      (destruct cu; [| |right; eexists; reflexivity]);
      intros Heq; now apply Hne in Heq.
  - intros [[code Hpt] | [code Hcu]]; simpl in *; subst; [reflexivity|].
    destruct pt; reflexivity.
Qed.

Lemma encodeAssertion_ends :
  forall (a : Zonefile.Assertion) (context zone indent : string)
         (addZoneAndContext : bool) (encoding : string),
    Zonefile.encodeAssertion Sprint_s a context zone indent addZoneAndContext
    = Returns encoding ->
    match Zonefile.ASignatures a with
    | None => exists body, encoding = (body ++ "]")%string
    | Some _ => exists body, encoding = (body ++ ")" ++ Zonefile.newline)%string
    end.
Proof.
  intros [name content sigs] context zone indent azc encoding.
  unfold Zonefile.encodeAssertion; simpl.
  set (assertion := if azc then _ else _).
  destruct (1 <? List.length content)%nat.
  - destruct (Zonefile.encodeObjects Sprint_s content (indent ++ Zonefile.indent4))
      as [objects|]; simpl; [|discriminate].
    intros Hres. inversion Hres; subst; clear Hres.
    destruct sigs as [sigs|];
      [destruct (map Zonefile.encodeEd25519Signature sigs) as [|sig [|sig' rest]]|];
      repeat first [ now (exists ""%string)
                   | apply ends_with_prepend | apply ends_with_cons ].
  - destruct (Zonefile.encodeObjects Sprint_s content "") as [objects|]; simpl;
      [|discriminate].
    intros Hres. inversion Hres; subst; clear Hres.
    destruct sigs as [sigs|];
      [destruct (map Zonefile.encodeEd25519Signature sigs) as [|sig [|sig' rest]]|];
      repeat first [ now (exists ""%string)
                   | apply ends_with_prepend | apply ends_with_cons ].
Qed.

(** X24: How the encoding of an assertion ends: with a line break when the
    assertion carries a (possibly empty) slice of signatures, and with the
    closing bracket and no line break when its signatures are nil. *)
Theorem encodeAssertion_line_end :
  forall (a : Zonefile.Assertion) (context zone indent : string)
         (addZoneAndContext : bool) (encoding : string),
    Zonefile.encodeAssertion Sprint_s a context zone indent addZoneAndContext
    = Returns encoding ->
    match Zonefile.ASignatures a with
    | None => exists body, encoding = (body ++ "]")%string
    | Some _ => exists body, encoding = (body ++ ")" ++ Zonefile.newline)%string
    end.
Proof. exact encodeAssertion_ends. Qed.

Lemma encodeAssertions_cons (a : Zonefile.Assertion) (rest : list Zonefile.Assertion)
    (context zone indent : string) (azc : bool) (acc text : string) :
  Zonefile.encodeAssertions Sprint_s (a :: rest) context zone indent azc acc
  = Returns text ->
  exists e tail,
    Zonefile.encodeAssertion Sprint_s a context zone indent azc = Returns e /\
    Zonefile.encodeAssertions Sprint_s rest context zone indent azc "" = Returns tail /\
    text = (acc ++ e ++ tail)%string.
Proof.
  simpl.
  destruct (Zonefile.encodeAssertion Sprint_s a context zone indent azc) as [e|];
    simpl; [|discriminate].
  intros Hres.
  assert (Hgen : forall l acc0 r,
             Zonefile.encodeAssertions Sprint_s l context zone indent azc acc0 = Returns r ->
             exists tail,
               Zonefile.encodeAssertions Sprint_s l context zone indent azc "" = Returns tail /\
               r = (acc0 ++ tail)%string).
  { induction l as [|x l IH]; intros acc0 r Hr; simpl in *.
    - inversion Hr; subst. exists ""%string. split; [reflexivity|].
      now rewrite string_append_nil_r.
    - destruct (Zonefile.encodeAssertion Sprint_s x context zone indent azc) as [ex|];
        simpl in *; [|discriminate].
      destruct (IH _ _ Hr) as (t1 & Ht1 & ->).
      destruct (Zonefile.encodeAssertions Sprint_s l context zone indent azc ex)
        as [r2|] eqn:Hr2.
      + destruct (IH _ _ Hr2) as (t2 & Ht2 & ->).
        rewrite Ht1 in Ht2. inversion Ht2; subst.
        exists (ex ++ t2)%string. split; [reflexivity|].
        now rewrite string_append_assoc.
      + exfalso. clear - Ht1 Hr2 IH.
        assert (Hpan : forall l' a1 a2,
                   Zonefile.encodeAssertions Sprint_s l' context zone indent azc a1 = Panics ->
                   Zonefile.encodeAssertions Sprint_s l' context zone indent azc a2 = Panics).
        { induction l' as [|y l' IH']; intros a1 a2 Hp; simpl in *; [discriminate|].
          destruct (Zonefile.encodeAssertion Sprint_s y context zone indent azc);
            simpl in *; [now apply (IH' _ _ Hp) | reflexivity]. }
        rewrite (Hpan _ _ ""%string Hr2) in Ht1. discriminate. }
  destruct (Hgen _ _ _ Hres) as (tail & Htail & ->).
  exists e, tail. split; [reflexivity|]. split; [exact Htail|].
  now rewrite string_append_assoc.
Qed.

(** X25: In a shard, an assertion without signatures is followed by the next
    assertion on the same line: the closing bracket of the first stands right
    before the encoding of the second, with no line break between them. *)
Theorem encodeShard_runs_unsigned_assertions_together :
  forall (s : Zonefile.Shard) (a1 a2 : Zonefile.Assertion) (rest : list Zonefile.Assertion)
         (context subjectZone indent : string) (addZoneAndContext : bool) (text : string),
    Zonefile.SContent s = a1 :: a2 :: rest ->
    Zonefile.ASignatures a1 = None ->
    Zonefile.encodeShard Sprint_s s context subjectZone indent addZoneAndContext
    = Returns text ->
    exists before e2 after,
      Zonefile.encodeAssertion Sprint_s a2 context subjectZone
        (indent ++ Zonefile.indent4)%string addZoneAndContext = Returns e2 /\
      text = (before ++ "]" ++ e2 ++ after)%string.
Proof.
  intros [from to content sigs] a1 a2 rest context zone indent azc text Hc Hunsigned.
  simpl in Hc. subst content. unfold Zonefile.encodeShard. cbn [Zonefile.SContent
    Zonefile.RangeFrom Zonefile.RangeTo Zonefile.SSignatures].
  set (header := if azc then _ else _).
  destruct (Zonefile.encodeAssertions Sprint_s (a1 :: a2 :: rest) context zone
              (indent ++ Zonefile.indent4) azc header) as [shard|] eqn:Hloop;
    [|discriminate].
  destruct (encodeAssertions_cons _ _ _ _ _ _ _ _ Hloop) as (e1 & tail1 & He1 & Ht1 & ->).
  destruct (encodeAssertions_cons _ _ _ _ _ _ _ _ Ht1) as (e2 & tail2 & He2 & _ & Htail).
  rewrite string_append_nil_l in Htail. subst tail1.
  pose proof (encodeAssertion_ends _ _ _ _ _ _ He1) as Hend.
  rewrite Hunsigned in Hend. destruct Hend as (body1 & ->).
  simpl bind.
  assert (Hmid : forall after0 : string,
             (indent ++ (header ++ (body1 ++ "]") ++ e2 ++ tail2) ++ after0)%string
             = ((indent ++ header ++ body1) ++ "]" ++ e2 ++ (tail2 ++ after0))%string).
  { intros after0. now rewrite !string_append_assoc. }
  destruct sigs as [sigs|];
    [destruct (map Zonefile.encodeEd25519Signature sigs) as [|sig [|sig' more]]|];
    intros Hres; inversion Hres; subst; clear Hres;
    exists (indent ++ header ++ body1)%string, e2; eexists;
    (split; [exact He2|]); apply Hmid.
Qed.

End ZonefileFacts.

Lemma Toy_keywords_fit : Zonefile.keywordsFit (H := Toy.keywords).
Proof. unfold Zonefile.keywordsFit. repeat constructor; simpl; lia. Qed.

Lemma encodeObjects_all_or_nothing_witness :
  Zonefile.encodeObjects (H := Toy.keywords) Toy.render
    [Toy.ip4Object; Toy.brokenNameObject; Toy.ip4Object] "    " = Returns "".
Proof.
  apply (@encodeObjects_all_or_nothing Toy.keywords Toy.render Toy_keywords_fit
           [Toy.ip4Object; Toy.brokenNameObject; Toy.ip4Object] "    ").
  reflexivity.
Defined.

Lemma addIndentToType_pads_or_panics_witness :
  Zonefile.addIndentToType ":deleg:" = Returns ":deleg:   " /\
  String.length ":deleg:   " = 10%nat.
Proof.
  apply (addIndentToType_pads_or_panics ":deleg:"). simpl. lia.
Defined.

Lemma encodeAssertion_line_end_witness :
  exists body,
    (":A: www [ :ip4:     192.0.2.1 ]" = body ++ "]")%string.
Proof.
  apply (@encodeAssertion_line_end Toy.keywords Toy.render
           (Zonefile.mkAssertion "www" [Toy.ip4Object] None) "." "ch" "" false
           ":A: www [ :ip4:     192.0.2.1 ]").
  reflexivity.
Defined.

Lemma encodeShard_runs_unsigned_assertions_together_witness :
  exists before e2 after,
    Zonefile.encodeAssertion (H := Toy.keywords) Toy.render
      (Zonefile.mkAssertion "b" [Toy.ip4Object] None) "." "ch" "    " false = Returns e2 /\
    (":S: < m [" ++ Zonefile.newline
     ++ "    :A: a [ :ip4:     192.0.2.1 ]    :A: b [ :ip4:     192.0.2.1 ]]"
     ++ Zonefile.newline)%string
    = (before ++ "]" ++ e2 ++ after)%string.
Proof.
  apply (@encodeShard_runs_unsigned_assertions_together Toy.keywords Toy.render
           Toy.unsignedShard (Zonefile.mkAssertion "a" [Toy.ip4Object] None)
           (Zonefile.mkAssertion "b" [Toy.ip4Object] None) [] "." "ch" "" false).
  - reflexivity.
  - reflexivity.
  - reflexivity.
Defined.

(* ================================================================= *)
(** * Printing tokens *)

Lemma below_16_listed (n : N) : (n < 16)%N -> In n (map N.of_nat (seq 0 16)).
Proof.
  intros Hn. apply in_map_iff. exists (N.to_nat n). split; [lia|].
  apply in_seq. lia.
Qed.

Lemma hexDigit_inj (n m : N) :
  (n < 16)%N -> (m < 16)%N -> hexDigit n = hexDigit m -> n = m.
Proof.
  intros Hn Hm Heq.
  assert (Hall : forallb (fun a =>
                   forallb (fun b => implb (Ascii.eqb (hexDigit a) (hexDigit b)) (N.eqb a b))
                     (map N.of_nat (seq 0 16)))
                   (map N.of_nat (seq 0 16)) = true) by reflexivity.
  rewrite forallb_forall in Hall. specialize (Hall n (below_16_listed n Hn)).
  rewrite forallb_forall in Hall. specialize (Hall m (below_16_listed m Hm)).
  rewrite Heq, Ascii.eqb_refl in Hall. simpl in Hall. now apply N.eqb_eq.
Qed.

Lemma hex_byte_inj (a b : Byte.byte) :
  hexDigit (Byte.to_N a / 16) = hexDigit (Byte.to_N b / 16) ->
  hexDigit (Byte.to_N a mod 16) = hexDigit (Byte.to_N b mod 16) ->
  a = b.
Proof.
  intros Hhi Hlo.
  pose proof (Byte.to_N_bounded a) as Ha. pose proof (Byte.to_N_bounded b) as Hb.
  apply hexDigit_inj in Hhi;
    [| apply N.Div0.div_lt_upper_bound; lia | apply N.Div0.div_lt_upper_bound; lia].
  apply hexDigit_inj in Hlo; [| apply N.mod_lt; lia | apply N.mod_lt; lia].
  assert (Heq : Byte.to_N a = Byte.to_N b).
  { rewrite (N.div_mod (Byte.to_N a) 16), (N.div_mod (Byte.to_N b) 16) by lia.
    now rewrite Hhi, Hlo. }
  pose proof (Byte.of_to_N a) as Hoa. rewrite Heq, Byte.of_to_N in Hoa.
  now inversion Hoa.
Qed.

(** X7: [Token.String()] prints two characters per byte, 32 for a token of 16
    bytes, and tokens that differ are printed differently. *)
Theorem Token_String_injective :
  forall t1 t2 : list Byte.byte,
    String.length (Token_String t1) = (2 * List.length t1)%nat /\
    (Token_String t1 = Token_String t2 -> t1 = t2).
Proof.
  intros t1 t2. unfold Token_String. split.
  - induction t1 as [|b t1 IH]; simpl; [reflexivity|]. rewrite IH. lia.
  - revert t2. induction t1 as [|a t1 IH]; intros [|b t2] Heq; simpl in Heq;
      try discriminate; [reflexivity|].
    inversion Heq as [[Hhi Hlo Hrest]].
    f_equal; [now apply hex_byte_inj | now apply IH].
Qed.
